(** * Far::PatchTables: limit-surface evaluation (far/patchTables.h)

    A shallow embedding of the interpolation methods of [PatchTables]:
    [InterpolateBilinear], [InterpolateRegularPatch], [InterpolateBoundaryPatch],
    [InterpolateCornerPatch], [InterpolateGregoryPatch], [Interpolate] and
    [Limit].

    The C++ methods are templates over the source buffer [T] and the
    destination [U]; they compute with [float].  The embedding is generic in
    the same way: a class [Scalar] for the arithmetic (instantiated with IEEE
    binary32 and with exact rationals) and a class [Accumulator] for the
    destination's two operations [Clear] and [AddWithWeight].

    Conventions.
    - [float] is IEEE 754 binary32, rounded to nearest even after every
      operation (no excess precision, no fused operations).
    - The [assert]s are compiled in: a failed assertion ends the call.
    - Reads through a pointer or [operator[]] are total lookups; reading past
      the end of an array, and overflow of [int], are outside the model.
    - Members and types that the header only declares or takes from the
      headers it includes are parameters, gathered in [Declared]. *)

From Stdlib Require Import ZArith List Bool Lia.
From Stdlib Require Import QArith Qcanon Field.
From Stdlib Require Import Floats.SpecFloat.
Import ListNotations.

Set Implicit Arguments.

(** ** Scalars: the operations the header applies to [float] *)

Class Scalar (F : Type) : Type := {
  fconst : Z -> F;          (* an integer-valued literal: 1.0f, 2.0f, -1.0f, 1 *)
  fadd : F -> F -> F;
  fsub : F -> F -> F;
  fmul : F -> F -> F;
  fdiv : F -> F -> F;
  fneg : F -> F;            (* unary minus *)
  feqb : F -> F -> bool     (* operator== *)
}.

Declare Scope fl_scope.
Delimit Scope fl_scope with fl.
Notation "x + y" := (fadd x y) : fl_scope.
Notation "x - y" := (fsub x y) : fl_scope.
Notation "x * y" := (fmul x y) : fl_scope.
Notation "x / y" := (fdiv x y) : fl_scope.
Notation "- x" := (fneg x) : fl_scope.
Notation "x == y" := (feqb x y) (at level 70, no associativity) : fl_scope.
Notation "# z" := (fconst z) (at level 1, format "# z") : fl_scope.

(** IEEE 754 binary32, round to nearest even: C++ [float]. *)
Module Binary32.
Definition prec : Z := 24.
Definition emax : Z := 128.
Definition float : Type := spec_float.

Definition of_Z (z : Z) : float := binary_normalize prec emax z 0 false.
Definition add : float -> float -> float := SFadd prec emax.
Definition sub : float -> float -> float := SFsub prec emax.
Definition mul : float -> float -> float := SFmul prec emax.
Definition div : float -> float -> float := SFdiv prec emax.
Definition neg : float -> float := SFopp.
Definition eqb : float -> float -> bool := SFeqb.
Definition leb : float -> float -> bool := SFleb.

(** [m * 2^e], rounded: used to write float literals such as [0.2f]. *)
Definition of_dyadic (m e : Z) : float := binary_normalize prec emax m e false.

Definition is_finite (x : float) : bool :=
  match x with
  | S754_zero _ | S754_finite _ _ _ => true
  | S754_infinity _ | S754_nan => false
  end.


Definition zero : float := S754_zero false.
Definition one : float := Eval cbv in of_Z 1.

(** A float proper: its mantissa and exponent are in range and canonical. *)
Definition valid (x : float) : bool := valid_binary prec emax x.


(** The least exponent, -149. *)
Definition emin : Z := Eval cbv in SpecFloat.emin prec emax.


End Binary32.

#[export] Instance Scalar_binary32 : Scalar Binary32.float := {|
  fconst := Binary32.of_Z;
  fadd := Binary32.add;
  fsub := Binary32.sub;
  fmul := Binary32.mul;
  fdiv := Binary32.div;
  fneg := Binary32.neg;
  feqb := Binary32.eqb
|}.

(** Exact arithmetic: the rationals in canonical form. *)
#[export] Instance Scalar_exact : Scalar Qc := {|
  fconst := fun z => Q2Qc (inject_Z z);
  fadd := Qcplus;
  fsub := Qcminus;
  fmul := Qcmult;
  fdiv := Qcdiv;
  fneg := Qcopp;
  feqb := Qc_eq_bool
|}.

(** ** Indices, arrays behind pointers, loops *)

(** [typedef int Index]. *)
Definition Index : Type := Z.

(** [A const *]: the callee sees a base address and reads at offsets; the
    extent of the array is the caller's business. *)
Definition ptr (A : Type) : Type := nat -> A.

(** A local array [A a[n] = { ... }]. *)
Definition arr {A : Type} (dflt : A) (l : list A) : ptr A :=
  fun k => nth k l dflt.

(** [for (int k = lo; k < hi; ++k) body]. *)
Definition for_loop {S : Type} (lo hi : nat) (body : nat -> S -> S) (st : S)
    : S :=
  fold_left (fun st k => body k st) (seq lo (hi - lo)) st.

(** ** The destination: [dst.Clear()] and [dst.AddWithWeight(v, w, wd1, wd2)] *)

Class Accumulator (F V U : Type) : Type := {
  Clear : U -> U;
  AddWithWeight : U -> V -> F -> F -> F -> U
}.

(** ** Outcomes: a call returns, or one of the header's [assert]s fails *)

Inductive Assertion : Type :=
| Assert_fcount_lt_4             (* assert(fcount < 4) *)
| Assert_not_IsFeatureAdaptive   (* assert(not IsFeatureAdaptive()) *)
| Assert_IsFeatureAdaptive       (* assert(IsFeatureAdaptive()) *)
| Assert_endcapStencilTables     (* assert(_endcapStencilTables) *)
| Assert_0.                      (* assert(0) *)

Inductive Outcome (A : Type) : Type :=
| Returns (a : A)
| Aborts (why : Assertion).
Arguments Aborts {A} why.

(** [assert(c); rest]. *)
Definition assert_that {A : Type} (c : bool) (why : Assertion)
    (rest : Outcome A) : Outcome A :=
  if c then rest else Aborts why.

Definition bind {A B : Type} (m : Outcome A) (k : A -> Outcome B) : Outcome B :=
  match m with
  | Returns a => k a
  | Aborts why => Aborts why
  end.

Section Interpolation.
Context {F : Type} {SF : Scalar F}.
Context {V U : Type} {ACC : Accumulator F V U}.
Local Open Scope fl_scope.

(** The source buffer [T const & src], read through [src[i]]. *)
Variable src : Index -> V.

(** The three weight tables local to [InterpolateBilinear]. *)
Definition bilinearWeights (s t : F) : list F * list F * list F :=
  let os := #1 - s in
  let ot := #1 - t in
  ([ os*ot;  s*ot; s*t; os*t ],
   [ t - #1;   ot;   t;   -t ],
   [ s - #1;   -s;   s;   os ]).

Definition InterpolateBilinear (cvs : ptr Index) (s t : F) (dst : U) : U :=
  let '(Q, dQ1, dQ2) := bilinearWeights s t in
  let Q := arr #0 Q in
  let dQ1 := arr #0 dQ1 in
  let dQ2 := arr #0 dQ2 in
  for_loop 0 4 (fun k dst =>
    AddWithWeight dst (src (cvs k)) (Q k) (dQ1 k) (dQ2 k)) dst.

Definition InterpolateRegularPatch (cvs : ptr Index) (Q Qd1 Qd2 : ptr F)
    (dst : U) : U :=
  for_loop 0 16 (fun k dst =>
    AddWithWeight dst (src (cvs k)) (Q k) (Qd1 k) (Qd2 k)) dst.

Definition InterpolateBoundaryPatch (cvs : ptr Index) (Q Qd1 Qd2 : ptr F)
    (dst : U) : U :=
  (* M0 - M3 *)
  let dst := for_loop 0 4 (fun k dst =>
    let dst := AddWithWeight dst (src (cvs k))
                 (#2 * Q k) (#2 * Qd1 k) (#2 * Qd2 k) in
    AddWithWeight dst (src (cvs (k+4)%nat))
                 (#(-1) * Q k) (#(-1) * Qd1 k) (#(-1) * Qd2 k)) dst in
  for_loop 0 12 (fun k dst =>
    AddWithWeight dst (src (cvs k))
                 (Q (k+4)%nat) (Qd1 (k+4)%nat) (Qd2 (k+4)%nat)) dst.

Definition InterpolateCornerPatch (cvs : ptr Index) (Q Qd1 Qd2 : ptr F)
    (dst : U) : U :=
  (* M0 - M2 *)
  let dst := for_loop 0 3 (fun k dst =>
    let dst := AddWithWeight dst (src (cvs k))
                 (#2 * Q k) (#2 * Qd1 k) (#2 * Qd2 k) in
    AddWithWeight dst (src (cvs (k+3)%nat))
                 (#(-1) * Q k) (#(-1) * Qd1 k) (#(-1) * Qd2 k)) dst in
  (* M4 - M6 *)
  let dst := for_loop 0 3 (fun k dst =>
    let idx := ((k+1)*4 + 3)%nat in
    let dst := AddWithWeight dst (src (cvs (k*3+2)%nat))
                 (#2 * Q idx) (#2 * Qd1 idx) (#2 * Qd2 idx) in
    AddWithWeight dst (src (cvs (k*3+1)%nat))
                 (#(-1) * Q idx) (#(-1) * Qd1 idx) (#(-1) * Qd2 idx)) dst in
  (* M3 = -2.v1 + 4.v2 + v4 - 2.v5 *)
  let dst := AddWithWeight dst (src (cvs 1%nat))
               (#(-2) * Q 3%nat) (#(-2) * Qd1 3%nat) (#(-2) * Qd2 3%nat) in
  let dst := AddWithWeight dst (src (cvs 2%nat))
               (#4 * Q 3%nat) (#4 * Qd1 3%nat) (#4 * Qd2 3%nat) in
  let dst := AddWithWeight dst (src (cvs 4%nat))
               (#1 * Q 3%nat) (#1 * Qd1 3%nat) (#1 * Qd2 3%nat) in
  let dst := AddWithWeight dst (src (cvs 5%nat))
               (#(-2) * Q 3%nat) (#(-2) * Qd1 3%nat) (#(-2) * Qd2 3%nat) in
  (* v0 - v8 *)
  for_loop 0 3 (fun y dst =>
    for_loop 0 3 (fun x dst =>
      let idx := (y*4 + x + 4)%nat in
      AddWithWeight dst (src (cvs (y*3+x)%nat)) (Q idx) (Qd1 idx) (Qd2 idx))
      dst) dst.

(** *** Gregory-basis patches: a stencil per basis control vertex *)

(** [Stencil]: [GetSize()], [GetVertexIndices()], [GetWeights()]. *)
Record Stencil : Type := {
  GetSize : Z;
  GetVertexIndices : ptr Index;
  GetWeights : ptr F
}.

(** [StencilTables const *], read through [GetStencil(i)]. *)
Definition StencilTables : Type := Index -> Stencil.

(** The four denominators [d11], [d12], [d21], [d22]. *)
Definition gregoryDenominators (s t : F) : F * F * F * F :=
  let ss := #1 - s in
  let tt := #1 - t in
  let d11 := if s+t == #0 then #1 else s+t in
  let d12 := if ss+t == #0 then #1 else ss+t in
  let d21 := if s+tt == #0 then #1 else s+tt in
  let d22 := if ss+tt == #0 then #1 else ss+tt in
  (d11, d12, d21, d22).

(** [float weights[4][2]]. *)
Definition gregoryWeights (s t : F) : list (F * F) :=
  let ss := #1 - s in
  let tt := #1 - t in
  let '(d11, d12, d21, d22) := gregoryDenominators s t in
  [ ( s/d11,  t/d11);
    (ss/d12,  t/d12);
    ( s/d21, tt/d21);
    (ss/d22, tt/d22) ].

Definition permute : list Z :=
  [ 0; 1; 7; 5; 2; -1; -1; 6; 16; -1; -1; 12; 15; 17; 11; 10 ]%Z.

Definition fpermute : list (Z * Z) :=
  [ (3, 4); (9, 8); (19, 18); (13, 14) ]%Z.

Definition InterpolateGregoryPatch (basisStencils : StencilTables)
    (stencilIndex : Z) (s t : F) (Q Qd1 Qd2 : ptr F) (dst : U) : Outcome U :=
  let weights := arr (#0, #0) (gregoryWeights s t) in
  let permute := arr 0%Z permute in
  let fpermute := arr (0, 0)%Z fpermute in
  bind
    (for_loop 0 16 (fun i st =>
       bind st (fun '(dst, fcount) =>
         let index := permute i in
         let offset := stencilIndex in
         if (index =? -1)%Z then
           (* 0-ring vertex: blend 2 extra basis CVs *)
           assert_that (fcount <? 4)%nat Assert_fcount_lt_4 (
             let v0 := fst (fpermute fcount) in
             let v1 := snd (fpermute fcount) in
             let s0 := basisStencils (offset + v0)%Z in
             let s1 := basisStencils (offset + v1)%Z in
             let w0 := fst (weights fcount) in
             let w1 := snd (weights fcount) in
             let dst :=
               let srcIndices := GetVertexIndices s0 in
               let srcWeights := GetWeights s0 in
               for_loop 0 (Z.to_nat (GetSize s0)) (fun j dst =>
                 AddWithWeight dst (src (srcIndices j))
                   (Q i * w0 * srcWeights j) (Qd1 i * w0 * srcWeights j)
                   (Qd2 i * w0 * srcWeights j)) dst in
             let dst :=
               let srcIndices := GetVertexIndices s1 in
               let srcWeights := GetWeights s1 in
               for_loop 0 (Z.to_nat (GetSize s1)) (fun j dst =>
                 AddWithWeight dst (src (srcIndices j))
                   (Q i * w1 * srcWeights j) (Qd1 i * w1 * srcWeights j)
                   (Qd2 i * w1 * srcWeights j)) dst in
             Returns (dst, S fcount))
         else
           let s := basisStencils (offset + index)%Z in
           let srcIndices := GetVertexIndices s in
           let srcWeights := GetWeights s in
           Returns
             (for_loop 0 (Z.to_nat (GetSize s)) (fun j dst =>
                AddWithWeight dst (src (srcIndices j))
                  (Q i * srcWeights j) (Qd1 i * srcWeights j)
                  (Qd2 i * srcWeights j)) dst,
              fcount)))
       (Returns (dst, 0%nat)))
    (fun '(dst, _) => Returns dst).

End Interpolation.

(** ** The tables *)

(** [PatchTables::PatchHandle]. *)
Record PatchHandle : Type := {
  arrayIndex : Index;   (* Array index of the patch *)
  patchIndex : Index;   (* Absolute Index of the patch *)
  vertIndex : Index     (* Relative offset to the first CV of the patch in array *)
}.

(** [PatchTables::FVarPatchTables]. *)
Record Channel : Type := { patchVertIndices : list Index }.
Record FVarPatchTables : Type := { _channels : list Channel }.

Definition GetNumChannels (fv : FVarPatchTables) : Z :=
  Z.of_nat (length (_channels fv)).

Inductive TensorBasis : Type := BASIS_BEZIER | BASIS_BSPLINE.

(** The enumerators of [PatchDescriptor::Type] that [Limit] names.  The
    enumeration is declared in far/patchDescriptor.h; a value of the type is
    an integer. *)
Record TypeEnum : Type := {
  REGULAR : Z;
  SINGLE_CREASE : Z;
  BOUNDARY : Z;
  CORNER : Z;
  GREGORY : Z;
  GREGORY_BOUNDARY : Z;
  GREGORY_BASIS : Z
}.

(** The enumerators are declared in this order. *)
Definition declared_in_order (E : TypeEnum) : Prop :=
  (REGULAR E < SINGLE_CREASE E < BOUNDARY E)%Z /\
  (BOUNDARY E < CORNER E < GREGORY E)%Z /\
  (GREGORY E < GREGORY_BOUNDARY E < GREGORY_BASIS E)%Z.

Section Tables.
Context {F : Type}.

(** Types that come from the headers this one includes:
    [struct PatchArray] (only declared here), [PatchParamTable],
    [PatchParam], [PatchParam::BitField], [PatchDescriptor], [IndexArray]. *)
Variables PatchArray PatchParamTable PatchParam BitField : Type.
Variables PatchDescriptor IndexArray : Type.

(** The data members of [PatchTables]. *)
Record PatchTables : Type := {
  _maxValence : Z;
  _numPtexFaces : Z;
  _patchArrays : list PatchArray;
  _patchVerts : list Index;
  _paramTable : PatchParamTable;
  _endcapStencilTables : option (@StencilTables F);   (* a pointer; may be null *)
  _quadOffsetsTable : list Z;
  _vertexValenceTable : list Index;
  _fvarPatchTables : option FVarPatchTables;
  _sharpnessIndices : list Index;
  _sharpnessValues : list F
}.

Definition GetNumControlVerticesTotal (pt : PatchTables) : Z :=
  Z.of_nat (length (_patchVerts pt)).

Definition GetEndCapStencilIndex (handle : PatchHandle) : Index :=
  vertIndex handle.

(** Members and collaborators that the header declares or calls and that
    are defined elsewhere. *)
Record Declared : Type := {
  TYPE : TypeEnum;
  IsFeatureAdaptive : PatchTables -> bool;
  GetPatchArrayDescriptor : PatchTables -> Index -> PatchDescriptor;
  GetType : PatchDescriptor -> Z;
  GetPatchVertices : PatchTables -> PatchHandle -> IndexArray;
  begin : IndexArray -> ptr Index;
  param_at : PatchParamTable -> Index -> PatchParam;   (* operator[] *)
  bitField : PatchParam -> BitField;
  Normalize : BitField -> F -> F -> F * F;   (* updates s and t in place *)
  getBasisWeightsAtUV :
    TensorBasis -> BitField -> F -> F -> ptr F * ptr F * ptr F
}.

Context {SF : Scalar F}.
Context {V U : Type} {ACC : Accumulator F V U}.
Variable D : Declared.
Variable src : Index -> V.

(** [GetPatchArrayDescriptor(handle.arrayIndex).GetType()]. *)
Definition patchType (pt : PatchTables) (handle : PatchHandle) : Z :=
  GetType D (GetPatchArrayDescriptor D pt (arrayIndex handle)).

(** Interpolates the limit position of a parametric location on a bilinear
    patch. *)
Definition Interpolate (pt : PatchTables) (handle : PatchHandle) (s t : F)
    (dst : U) : Outcome U :=
  assert_that (negb (IsFeatureAdaptive D pt)) Assert_not_IsFeatureAdaptive (
    let cvs := GetPatchVertices D pt handle in
    let bits := bitField D (param_at D (_paramTable pt) (patchIndex handle)) in
    let '(s, t) := Normalize D bits s t in
    let dst := Clear dst in
    Returns (InterpolateBilinear src (begin D cvs) s t dst)).

(** Interpolates the limit position of a parametric location on a patch. *)
Definition Limit (pt : PatchTables) (handle : PatchHandle) (s t : F)
    (dst : U) : Outcome U :=
  assert_that (IsFeatureAdaptive D pt) Assert_IsFeatureAdaptive (
    let bits := bitField D (param_at D (_paramTable pt) (patchIndex handle)) in
    let '(s, t) := Normalize D bits s t in
    let ptype := patchType pt handle in
    let dst := Clear dst in
    let E := TYPE D in
    if ((REGULAR E <=? ptype) && (ptype <=? CORNER E))%Z then
      let '(Q, Qd1, Qd2) := getBasisWeightsAtUV D BASIS_BSPLINE bits s t in
      let cvs := GetPatchVertices D pt handle in
      if (ptype =? REGULAR E)%Z then
        Returns (InterpolateRegularPatch src (begin D cvs) Q Qd1 Qd2 dst)
      else if (ptype =? SINGLE_CREASE E)%Z then
        (* TODO: implement InterpolateSingleCreasePatch(). *)
        Returns dst
      else if (ptype =? BOUNDARY E)%Z then
        Returns (InterpolateBoundaryPatch src (begin D cvs) Q Qd1 Qd2 dst)
      else if (ptype =? CORNER E)%Z then
        Returns (InterpolateCornerPatch src (begin D cvs) Q Qd1 Qd2 dst)
      else if ((ptype =? GREGORY E) || (ptype =? GREGORY_BOUNDARY E))%Z then
        Aborts Assert_0
      else
        Aborts Assert_0
    else if (ptype =? GREGORY_BASIS E)%Z then
      match _endcapStencilTables pt with
      | None => Aborts Assert_endcapStencilTables
      | Some endcapStencilTables =>
          let '(Q, Qd1, Qd2) := getBasisWeightsAtUV D BASIS_BEZIER bits s t in
          InterpolateGregoryPatch src endcapStencilTables (vertIndex handle)
            s t Q Qd1 Qd2 dst
      end
    else
      Aborts Assert_0).

End Tables.

(** Sum of a weight table, left to right. *)
Definition fsum {F : Type} {SF : Scalar F} (l : list F) : F :=
  fold_left fadd l (fconst 0).

Definition corners {F : Type} {SF : Scalar F} : list (F * F) :=
  [ (fconst 0, fconst 0); (fconst 1, fconst 0);
    (fconst 0, fconst 1); (fconst 1, fconst 1) ].


(** ** Two destinations *)

(** A destination that records the calls made on it, in order. *)
Inductive Call (F V : Type) : Type :=
| call (v : V) (w wd1 wd2 : F).

#[export] Instance Recorder (F V : Type) : Accumulator F V (list (Call F V)) := {|
  Clear := fun _ => [];
  AddWithWeight := fun dst v w wd1 wd2 => dst ++ [call v w wd1 wd2]
|}.

(** Making a list of calls on any destination. *)
Definition replay {F V U : Type} {ACC : Accumulator F V U}
    (calls : list (Call F V)) (dst : U) : U :=
  fold_left (fun dst c => let 'call v w wd1 wd2 := c in
                          AddWithWeight dst v w wd1 wd2) calls dst.

(** A destination that sums: a limit point and its two tangents. *)
Record LimitFrame (F : Type) : Type := {
  point : F;
  deriv1 : F;
  deriv2 : F
}.

#[export] Instance Summing (F : Type) {SF : Scalar F}
  : Accumulator F F (LimitFrame F) := {|
  Clear := fun _ =>
    {| point := fconst 0; deriv1 := fconst 0; deriv2 := fconst 0 |};
  AddWithWeight := fun dst v w wd1 wd2 =>
    {| point := fadd (point dst) (fmul w v);
       deriv1 := fadd (deriv1 dst) (fmul wd1 v);
       deriv2 := fadd (deriv2 dst) (fmul wd2 v) |}
|}.

(** ** The regular grids that boundary and corner patches stand for *)

(** The mirror image of [inner] across [v]. *)
Definition mirror {F : Type} {SF : Scalar F} (v inner : F) : F :=
  fsub (fmul (fconst 2) v) inner.

(** Twelve stored values [v0 .. v11] under the row [M0 .. M3] of their
    mirror images. *)
Definition boundaryGrid {F : Type} {SF : Scalar F} (v : ptr F) : ptr F :=
  fun i => if (i <? 4)%nat then mirror (v i) (v (i+4)%nat) else v (i-4)%nat.

(** Nine stored values [v0 .. v8], the mirrored row [M0 M1 M2], the mirrored
    column [M4 M5 M6] and the corner [M3]. *)
Definition cornerGrid {F : Type} {SF : Scalar F} (v : ptr F) : ptr F :=
  (* M3 = -2.v1 + 4.v2 + v4 - 2.v5 *)
  let M3 := fsub (fadd (fadd (fmul (fconst (-2)) (v 1%nat))
                             (fmul (fconst 4) (v 2%nat)))
                       (v 4%nat))
                 (fmul (fconst 2) (v 5%nat)) in
  arr (fconst 0)
    [ mirror (v 0%nat) (v 3%nat); mirror (v 1%nat) (v 4%nat);
        mirror (v 2%nat) (v 5%nat); M3;
      v 0%nat; v 1%nat; v 2%nat; mirror (v 2%nat) (v 1%nat);
      v 3%nat; v 4%nat; v 5%nat; mirror (v 5%nat) (v 4%nat);
      v 6%nat; v 7%nat; v 8%nat; mirror (v 8%nat) (v 7%nat) ].

(** A source buffer holding the sixteen values of a grid at indices 0..15,
    and the identity index array that reads it. *)
Definition gridSource {F : Type} (g : ptr F) : Index -> F :=
  fun i => g (Z.to_nat i).

Definition gridIndices : ptr Index := fun k => Z.of_nat k.

(** ** The sixteen slots of a Gregory-basis patch, in closed form

    What the 16-to-20 table [permute] and the pairs [fpermute] amount to,
    slot by slot; [InterpolateGregoryPatch] is compared with it below. *)

Inductive Slot (F : Type) : Type :=
| Single (index : Z)                 (* one stencil *)
| Blend (v0 v1 : Z) (w0 w1 : F).     (* two stencils and their blend weights *)
Arguments Single {F} index.

Section Slots.
Context {F : Type} {SF : Scalar F} {V : Type}.
Variable src : Index -> V.
Variable basisStencils : @StencilTables F.
Variable stencilIndex : Z.

(** The calls one stencil makes when its weights are scaled by the
    factors [q], [q1], [q2]. *)
Definition stencilCalls (st : @Stencil F) (q q1 q2 : F) : list (Call F V) :=
  map (fun j => call (src (GetVertexIndices st j))
                     (fmul q (GetWeights st j))
                     (fmul q1 (GetWeights st j))
                     (fmul q2 (GetWeights st j)))
      (seq 0 (Z.to_nat (GetSize st))).

Definition slotCalls (Q Qd1 Qd2 : ptr F) (i : nat) (sl : Slot F)
    : list (Call F V) :=
  match sl with
  | Single index =>
      stencilCalls (basisStencils (stencilIndex + index)%Z)
                   (Q i) (Qd1 i) (Qd2 i)
  | Blend v0 v1 w0 w1 =>
      stencilCalls (basisStencils (stencilIndex + v0)%Z)
                   (fmul (Q i) w0) (fmul (Qd1 i) w0) (fmul (Qd2 i) w0)
      ++ stencilCalls (basisStencils (stencilIndex + v1)%Z)
                   (fmul (Q i) w1) (fmul (Qd1 i) w1) (fmul (Qd2 i) w1)
  end.

Definition slotsCalls (Q Qd1 Qd2 : ptr F) (slots : list (Slot F))
    : list (Call F V) :=
  concat (map (fun '(i, sl) => slotCalls Q Qd1 Qd2 i sl)
              (combine (seq 0 (length slots)) slots)).
End Slots.

Definition isBlend {F : Type} (sl : Slot F) : bool :=
  match sl with
  | Single _ => false
  | Blend _ _ _ _ => true
  end.

(** ** Blend pairs *)



(** The four sums tested by [InterpolateGregoryPatch], in the order of the
    rows of [weights]. *)
Definition gregorySums {F : Type} {SF : Scalar F} (s t : F) : list F :=
  let ss := fsub (fconst 1) s in
  let tt := fsub (fconst 1) t in
  [ fadd s t; fadd ss t; fadd s tt; fadd ss tt ].



(** ** A small instance

    The enumerators as far/patchDescriptor.h numbers them (NON_PATCH = 0,
    POINTS, LINES, QUADS, TRIANGLES, LOOP, REGULAR, ...), stand-ins for the
    collaborators, and three stores of a single patch array each. *)

Module Example.

Definition QUADS : Z := 3.

Definition types : TypeEnum := {|
  REGULAR := 6;
  SINGLE_CREASE := 7;
  BOUNDARY := 8;
  CORNER := 9;
  GREGORY := 10;
  GREGORY_BOUNDARY := 11;
  GREGORY_BASIS := 12
|}.

(** Another numbering, which leaves room inside the range REGULAR..CORNER. *)
Definition spread_types : TypeEnum := {|
  REGULAR := 6;
  SINGLE_CREASE := 7;
  BOUNDARY := 8;
  GREGORY := 9;
  GREGORY_BOUNDARY := 10;
  CORNER := 11;
  GREGORY_BASIS := 12
|}.

(** A patch array is known by the type of its descriptor; the parameters
    carry no sub-face transform; the basis weights are a fixed table. *)
Definition declared_with (E : TypeEnum)
  : @Declared Binary32.float Z (list unit) unit unit Z (list Index) := {|
  TYPE := E;
  IsFeatureAdaptive := fun pt =>
    existsb (fun ty => negb (ty =? QUADS)%Z) (_patchArrays pt);
  GetPatchArrayDescriptor := fun pt i => nth (Z.to_nat i) (_patchArrays pt) 0%Z;
  GetType := fun ty => ty;
  GetPatchVertices := fun pt handle =>
    skipn (Z.to_nat (vertIndex handle)) (_patchVerts pt);
  begin := arr 0%Z;
  param_at := fun table i => nth (Z.to_nat i) table tt;
  bitField := fun param => param;
  Normalize := fun _ s t => (s, t);
  getBasisWeightsAtUV := fun _ _ s t =>
    (fun k => if Nat.even k then s else t,
     fun _ => fconst 1,
     fun _ => fconst (-1))
|}.

Definition declared := declared_with types.

(** One stencil per basis vertex: vertex [i] alone, with weight 1. *)
Definition stencils : @StencilTables Binary32.float :=
  fun i => {| GetSize := 1;
              GetVertexIndices := fun _ => i;
              GetWeights := fun _ => fconst 1 |}.

Definition tables (ty : Z)
  : @PatchTables Binary32.float Z (list unit) := {|
  _maxValence := 4;
  _numPtexFaces := 1;
  _patchArrays := [ty];
  _patchVerts := map Z.of_nat (seq 0 20);
  _paramTable := [tt];
  _endcapStencilTables := Some stencils;
  _quadOffsetsTable := [];
  _vertexValenceTable := [];
  _fvarPatchTables := None;
  _sharpnessIndices := [];
  _sharpnessValues := []
|}.

Definition handle : PatchHandle :=
  {| arrayIndex := 0%Z; patchIndex := 0%Z; vertIndex := 0%Z |}.

(** The source buffer: vertex [i] holds the value [i]. *)
Definition source : Index -> Binary32.float := Binary32.of_Z.

Definition quarter : Binary32.float := Binary32.of_dyadic 1 (-2).
Definition half : Binary32.float := Binary32.of_dyadic 1 (-1).

Definition frame (p d1 d2 : Z) : LimitFrame Binary32.float :=
  {| point := Binary32.of_Z p;
     deriv1 := Binary32.of_Z d1;
     deriv2 := Binary32.of_Z d2 |}.

End Example.

(** ** Sums of weights, data that is constant or planar *)

(** The sum of the entries [0 .. n-1] of a table. *)
Definition sumTo {F : Type} {SF : Scalar F} (n : nat) (w : ptr F) : F :=
  fsum (map w (seq 0 n)).

(** The sum of the weights of a stencil. *)
Definition stencilWeightSum {F : Type} {SF : Scalar F} (st : @Stencil F) : F :=
  sumTo (Z.to_nat (GetSize st)) (GetWeights st).

(** Two tables with the same entries [0 .. n-1]. *)
Definition sameTo {A : Type} (n : nat) (f g : ptr A) : Prop :=
  forall k, (k < n)%nat -> f k = g k.

(** The value [a + b*x + d*y] at column [x] and row [y] of the 4x4 grid,
    vertex [i] being at column [i mod 4] and row [i / 4]. *)
Definition planeGrid (a b d : Qc) : ptr Qc :=
  fun i => (a + b * Q2Qc (inject_Z (Z.of_nat (i mod 4)))
              + d * Q2Qc (inject_Z (Z.of_nat (i / 4))))%Qc.

(** The twelve stored values of a boundary patch cut from a grid: the rows
    1, 2, 3. *)
Definition boundaryStored {A : Type} (g : ptr A) : ptr A :=
  fun k => g (k + 4)%nat.

(** The nine stored values of a corner patch cut from a grid: the rows
    1, 2, 3 of the columns 0, 1, 2. *)
Definition cornerStored {A : Type} (g : ptr A) : ptr A :=
  fun k => g ((k / 3 + 1) * 4 + k mod 3)%nat.

(** A frame moved by the value [c] under three weights. *)
Definition moved (dst : LimitFrame Qc) (c w w1 w2 : Qc) : LimitFrame Qc :=
  {| point := point dst + w * c;
     deriv1 := deriv1 dst + w1 * c;
     deriv2 := deriv2 dst + w2 * c |}%Qc.

(** The combination [a*f + b*g] of two frames. *)
Definition blendFrames (a : Qc) (f : LimitFrame Qc) (b : Qc)
    (g : LimitFrame Qc) : LimitFrame Qc :=
  {| point := a * point f + b * point g;
     deriv1 := a * deriv1 f + b * deriv1 g;
     deriv2 := a * deriv2 f + b * deriv2 g |}%Qc.

(** Sixteen basis weights that add up to one, with derivative weights that
    add up to zero. *)
Definition partitionsUnity {F : Type} {SF : Scalar F}
    (w : ptr F * ptr F * ptr F) : Prop :=
  let '(Q, Qd1, Qd2) := w in
  sumTo 16 Q = fconst 1 /\ sumTo 16 Qd1 = fconst 0 /\ sumTo 16 Qd2 = fconst 0.

(** The small instance again, in exact arithmetic: the basis weights are
    1/16 each, the derivative weights alternate between 1 and -1. *)
Module ExactExample.

Definition declared
  : @Declared Qc Z (list unit) unit unit Z (list Index) := {|
  TYPE := Example.types;
  IsFeatureAdaptive := fun pt =>
    existsb (fun ty => negb (ty =? Example.QUADS)%Z) (_patchArrays pt);
  GetPatchArrayDescriptor := fun pt i => nth (Z.to_nat i) (_patchArrays pt) 0%Z;
  GetType := fun ty => ty;
  GetPatchVertices := fun pt handle =>
    skipn (Z.to_nat (vertIndex handle)) (_patchVerts pt);
  begin := arr 0%Z;
  param_at := fun table i => nth (Z.to_nat i) table tt;
  bitField := fun param => param;
  Normalize := fun _ s t => (s, t);
  getBasisWeightsAtUV := fun _ _ _ _ =>
    (fun _ => Q2Qc (Qmake 1 16),
     fun k => if Nat.even k then fconst 1 else fconst (-1),
     fun k => if Nat.even k then fconst (-1) else fconst 1)
|}.

(** One stencil per basis vertex: the vertices [i] and [i+1], with weights
    1/2 each. *)
Definition stencils : @StencilTables Qc :=
  fun i => {| GetSize := 2;
              GetVertexIndices := fun j => (i + Z.of_nat j)%Z;
              GetWeights := fun _ => Q2Qc (Qmake 1 2) |}.

Definition tables (ty : Z) (endcap : option (@StencilTables Qc))
  : @PatchTables Qc Z (list unit) := {|
  _maxValence := 4;
  _numPtexFaces := 1;
  _patchArrays := [ty];
  _patchVerts := map Z.of_nat (seq 0 20);
  _paramTable := [tt];
  _endcapStencilTables := endcap;
  _quadOffsetsTable := [];
  _vertexValenceTable := [];
  _fvarPatchTables := None;
  _sharpnessIndices := [];
  _sharpnessValues := []
|}.

Definition seven : Qc := Q2Qc (Qmake 7 1).
Definition third : Qc := Q2Qc (Qmake 1 3).

Definition frame (p d1 d2 : Z) : LimitFrame Qc :=
  {| point := Q2Qc (inject_Z p);
     deriv1 := Q2Qc (inject_Z d1);
     deriv2 := Q2Qc (inject_Z d2) |}.

End ExactExample.

(** A number with the sign of a zero dropped: [-0.0] becomes [+0.0]. *)
Definition unsignedZero (x : Binary32.float) : Binary32.float :=
  match x with
  | S754_zero _ => S754_zero false
  | _ => x
  end.

(** ** Calls with zero weights on a summing destination, in binary32 *)






(** * Properties *)

Local Open Scope fl_scope.

(** ** The embedding at work *)

(** A bilinear patch over the values 0, 1, 2, 3, at its centre: the point is
    1.5, the tangents are 0 and 2. *)
Example InterpolateBilinear_centre :
  InterpolateBilinear Example.source gridIndices Example.half Example.half
    (Clear (Example.frame 7 7 7)) =
  {| point := Binary32.of_dyadic 3 (-1);
     deriv1 := Binary32.of_Z 0;
     deriv2 := Binary32.of_Z 2 |}.
Proof. reflexivity. Qed.

(** [Interpolate] on a uniform store does the same after clearing the
    destination; on a store of regular patches it stops at its assertion. *)
Example Interpolate_uniform :
  Interpolate Example.declared Example.source (Example.tables Example.QUADS)
    Example.handle Example.half Example.half (Example.frame 7 7 7) =
  Returns {| point := Binary32.of_dyadic 3 (-1);
             deriv1 := Binary32.of_Z 0;
             deriv2 := Binary32.of_Z 2 |}.
Proof. reflexivity. Qed.

Example Interpolate_adaptive :
  Interpolate Example.declared Example.source (Example.tables 6)
    Example.handle Example.half Example.half (Example.frame 7 7 7) =
  Aborts Assert_not_IsFeatureAdaptive.
Proof. reflexivity. Qed.

(** A Gregory-basis patch at the corner (0,0), all basis weights 1: slot 5
    blends the stencils 3 and 4 with weights 0 and 0, slot 6 the stencils 9
    and 8 with weights 1 and 0. *)
Example InterpolateGregoryPatch_corner :
  let one : Binary32.float := #1 in
  let zero : Binary32.float := #0 in
  let Q : ptr Binary32.float := fun _ => one in
  match InterpolateGregoryPatch (fun i => i) Example.stencils 0 zero zero
          Q Q Q (@nil (Call Binary32.float Z)) with
  | Returns calls =>
      firstn 4 (skipn 5 calls) =
      [ call 3%Z zero zero zero; call 4%Z zero zero zero;
        call 9%Z one one one;    call 8%Z zero zero zero ]
  | Aborts _ => False
  end.
Proof. reflexivity. Qed.

(** Integer literals in the exact instance. *)
Lemma exact_const (z : Z) :
  Q2Qc (inject_Z z) = match z with
                      | Z0 => 0%Qc
                      | Zpos p => Q2Qc (Qmake (Zpos p) 1)
                      | Zneg p => (- Q2Qc (Qmake (Zpos p) 1))%Qc
                      end.
Proof.
  destruct z; try reflexivity.
  apply Qc_is_canon. unfold Qcopp, Q2Qc. cbn [this].
  rewrite !Qred_correct. reflexivity.
Qed.

Lemma exact_two : Q2Qc (Qmake 2 1) = (1 + 1)%Qc.
Proof. apply Qc_is_canon. reflexivity. Qed.

Lemma exact_four : Q2Qc (Qmake 4 1) = (1 + 1 + 1 + 1)%Qc.
Proof. apply Qc_is_canon. reflexivity. Qed.

(** Rewriting the exact instance to the field of rationals. *)
Ltac exact_arith :=
  cbv [fsum fold_left fadd fsub fmul fdiv fneg fconst feqb Scalar_exact];
  rewrite ?exact_const; rewrite ?exact_two, ?exact_four;
  change (Q2Qc (Qmake 1 1)) with 1%Qc.

(** C6: the weights [InterpolateBilinear] passes to the destination are
    (1-s)(1-t), s(1-t), st, (1-s)t with the derivative sets
    { t-1, 1-t, t, -t } and { s-1, -s, s, 1-s }; at the four corners of the
    unit square, in binary32, the value weights sum to 1.0 and each
    derivative set sums to 0.0; in exact arithmetic they do so for every
    (s,t). *)
Theorem bilinear_weights_sum :
  (forall (F : Type) (SF : Scalar F) (V U : Type) (ACC : Accumulator F V U)
          (src : Index -> V) (cvs : ptr Index) (s t : F) (dst : U),
     InterpolateBilinear src cvs s t dst =
     replay [ call (src (cvs 0%nat)) ((#1 - s) * (#1 - t)) (t - #1) (s - #1);
              call (src (cvs 1%nat)) (s * (#1 - t))        (#1 - t) (- s);
              call (src (cvs 2%nat)) (s * t)               t        s;
              call (src (cvs 3%nat)) ((#1 - s) * t)        (- t)    (#1 - s) ]
            dst) /\
  Forall (fun c : Binary32.float * Binary32.float =>
            let '(Q, dQ1, dQ2) := bilinearWeights (fst c) (snd c) in
            fsum Q = #1 /\ fsum dQ1 = #0 /\ fsum dQ2 = #0) corners /\
  (forall s t : Qc,
     let '(Q, dQ1, dQ2) := bilinearWeights s t in
     fsum Q = #1 /\ fsum dQ1 = #0 /\ fsum dQ2 = #0).
Proof.
  split; [ | split ].
  - intros. reflexivity.
  - repeat constructor.
  - intros s t. cbv [bilinearWeights]. exact_arith.
    repeat split; ring.
Qed.

(** C2: in [InterpolateBoundaryPatch], for k = 0..3 the weight of the missing
    vertex Mk goes to the stored vertex k with factor 2 and to its inward
    neighbour k+4 with factor -1, for the value and both derivative sets, and
    the weights 4..15 go one to one to the stored vertices 0..11; in exact
    arithmetic the result is that of the regular patch on the grid whose top
    row is Mk = 2 v[k] - v[k+4]. *)
Theorem boundary_patch_mirrors :
  (forall (F : Type) (SF : Scalar F) (V U : Type) (ACC : Accumulator F V U)
          (src : Index -> V) (cvs : ptr Index) (Q Qd1 Qd2 : ptr F) (dst : U),
     InterpolateBoundaryPatch src cvs Q Qd1 Qd2 dst =
     replay
       (flat_map (fun k =>
          [ call (src (cvs k)) (#2 * Q k) (#2 * Qd1 k) (#2 * Qd2 k);
            call (src (cvs (k+4)%nat))
                 (#(-1) * Q k) (#(-1) * Qd1 k) (#(-1) * Qd2 k) ])
          [0; 1; 2; 3]%nat
        ++ map (fun k =>
             call (src (cvs k)) (Q (k+4)%nat) (Qd1 (k+4)%nat) (Qd2 (k+4)%nat))
             (seq 0 12))
       dst) /\
  (forall (src : Index -> Qc) (cvs : ptr Index) (Q Qd1 Qd2 : ptr Qc)
          (dst : LimitFrame Qc),
     InterpolateBoundaryPatch src cvs Q Qd1 Qd2 dst =
     InterpolateRegularPatch
       (gridSource (boundaryGrid (fun k => src (cvs k)))) gridIndices
       Q Qd1 Qd2 dst).
Proof.
  split.
  - intros. reflexivity.
  - intros src cvs Q Qd1 Qd2 [p d1 d2].
    cbv [InterpolateBoundaryPatch InterpolateRegularPatch for_loop seq
         fold_left Nat.sub Nat.add AddWithWeight Summing point deriv1 deriv2
         gridSource gridIndices boundaryGrid mirror Nat.ltb Nat.leb].
    rewrite ?Nat2Z.id. cbn [Nat.sub Nat.add Z.to_nat Z.of_nat Pos.to_nat
                            Pos.iter_op].
    exact_arith.
    f_equal; ring.
Qed.

(** C3: in [InterpolateCornerPatch], the weight of the absent corner (index
    3) goes to the stored vertices 1, 2, 4, 5 with factors -2, 4, 1, -2; the
    weights of the missing row (0, 1, 2) and of the missing column (7, 11,
    15) go to a stored vertex with factor 2 and to its neighbour with factor
    -1; the nine weights left go one to one to the 3x3 stored grid; the same
    holds for both derivative sets.  In exact arithmetic the result is that
    of the regular patch on the completed grid, whose corner
    -2 v1 + 4 v2 + v4 - 2 v5 is the mirror image of the mirrored column. *)
Theorem corner_patch_mirrors :
  (forall (F : Type) (SF : Scalar F) (V U : Type) (ACC : Accumulator F V U)
          (src : Index -> V) (cvs : ptr Index) (Q Qd1 Qd2 : ptr F) (dst : U),
     InterpolateCornerPatch src cvs Q Qd1 Qd2 dst =
     replay
       (flat_map (fun k =>
          [ call (src (cvs k)) (#2 * Q k) (#2 * Qd1 k) (#2 * Qd2 k);
            call (src (cvs (k+3)%nat))
                 (#(-1) * Q k) (#(-1) * Qd1 k) (#(-1) * Qd2 k) ])
          [0; 1; 2]%nat
        ++ flat_map (fun '(v, inner, idx) =>
          [ call (src (cvs v)) (#2 * Q idx) (#2 * Qd1 idx) (#2 * Qd2 idx);
            call (src (cvs inner))
                 (#(-1) * Q idx) (#(-1) * Qd1 idx) (#(-1) * Qd2 idx) ])
          [ (2, 1, 7); (5, 4, 11); (8, 7, 15) ]%nat
        ++ [ call (src (cvs 1%nat))
                  (#(-2) * Q 3%nat) (#(-2) * Qd1 3%nat) (#(-2) * Qd2 3%nat);
             call (src (cvs 2%nat))
                  (#4 * Q 3%nat) (#4 * Qd1 3%nat) (#4 * Qd2 3%nat);
             call (src (cvs 4%nat))
                  (#1 * Q 3%nat) (#1 * Qd1 3%nat) (#1 * Qd2 3%nat);
             call (src (cvs 5%nat))
                  (#(-2) * Q 3%nat) (#(-2) * Qd1 3%nat) (#(-2) * Qd2 3%nat) ]
        ++ map (fun '(v, idx) =>
             call (src (cvs v)) (Q idx) (Qd1 idx) (Qd2 idx))
             [ (0, 4); (1, 5); (2, 6);
               (3, 8); (4, 9); (5, 10);
               (6, 12); (7, 13); (8, 14) ]%nat)
       dst) /\
  (forall (src : Index -> Qc) (cvs : ptr Index) (Q Qd1 Qd2 : ptr Qc)
          (dst : LimitFrame Qc),
     InterpolateCornerPatch src cvs Q Qd1 Qd2 dst =
     InterpolateRegularPatch
       (gridSource (cornerGrid (fun k => src (cvs k)))) gridIndices
       Q Qd1 Qd2 dst) /\
  (forall v : ptr Qc,
     cornerGrid v 3%nat = mirror (cornerGrid v 7%nat) (cornerGrid v 11%nat)).
Proof.
  split; [ | split ].
  - intros. reflexivity.
  - intros src cvs Q Qd1 Qd2 [p d1 d2].
    cbv [InterpolateCornerPatch InterpolateRegularPatch for_loop seq
         fold_left Nat.sub Nat.add Nat.mul AddWithWeight Summing
         point deriv1 deriv2 gridSource gridIndices cornerGrid mirror arr nth].
    rewrite ?Nat2Z.id.
    exact_arith.
    f_equal; ring.
  - intros v. cbv [cornerGrid mirror arr nth]. exact_arith. ring.
Qed.

(** ** Loops as lists of calls *)

Section Calls.
Context {F V U : Type} {ACC : Accumulator F V U}.

Lemma replay_app (l1 l2 : list (Call F V)) (dst : U) :
  replay (l1 ++ l2) dst = replay l2 (replay l1 dst).
Proof. apply fold_left_app. Qed.

Lemma for_loop_calls (n : nat) (v : nat -> V) (a b c : nat -> F) (dst : U) :
  for_loop 0 n (fun j dst => AddWithWeight dst (v j) (a j) (b j) (c j)) dst =
  replay (map (fun j => call (v j) (a j) (b j) (c j)) (seq 0 n)) dst.
Proof.
  unfold for_loop, replay. rewrite Nat.sub_0_r.
  generalize (seq 0 n) dst.
  induction l as [ | j l IH ]; intros d; [ reflexivity | ].
  cbn [map fold_left]. apply IH.
Qed.
End Calls.

(** The loop of [InterpolateGregoryPatch], slot by slot: no assertion fails,
    and the destination receives the calls of the sixteen slots in order. *)
Lemma InterpolateGregoryPatch_slots
    (F : Type) (SF : Scalar F) (V U : Type) (ACC : Accumulator F V U)
    (src : Index -> V) (basisStencils : StencilTables) (stencilIndex : Z)
    (s t : F) (Q Qd1 Qd2 : ptr F) (dst : U) :
  InterpolateGregoryPatch src basisStencils stencilIndex s t Q Qd1 Qd2 dst =
  Returns
    (replay
       (slotsCalls src basisStencils stencilIndex Q Qd1 Qd2
          (let '(d11, d12, d21, d22) := gregoryDenominators s t in
           [ Single 0; Single 1; Single 7; Single 5;
             Single 2; Blend 3 4 (s / d11) (t / d11);
               Blend 9 8 ((#1 - s) / d12) (t / d12); Single 6;
             Single 16; Blend 19 18 (s / d21) ((#1 - t) / d21);
               Blend 13 14 ((#1 - s) / d22) ((#1 - t) / d22); Single 12;
             Single 15; Single 17; Single 11; Single 10 ]))
       dst).
Proof.
  unfold InterpolateGregoryPatch, gregoryWeights.
  destruct (gregoryDenominators s t) as [[[d11 d12] d21] d22].
  cbv [slotsCalls length seq combine map concat slotCalls].
  rewrite ?replay_app, ?app_nil_r.
  unfold stencilCalls. rewrite <- !for_loop_calls.
  reflexivity.
Qed.

(** C4, amended: [InterpolateGregoryPatch] returns, and the destination
    receives, slot by slot, the calls of twelve single stencils (at
    [stencilIndex] plus the permuted index) and of four blends of two
    stencils; each call carries the source vertex of the stencil and Q[i]
    (Qd1[i], Qd2[i]) times the blend weight times the stencil's weight.
    Each sub-quadrant is judged on its own sum: with (a,b) = (s,t), (1-s,t),
    (s,1-t), (1-s,1-t) in turn, its blend weights are a/(a+b) and b/(a+b)
    when a+b is not zero, and a/1.0 and b/1.0 when it is.  This holds for
    every (s,t), the corners of the unit square included. *)
Theorem gregory_patch_slots
    (F : Type) (SF : Scalar F) (V U : Type) (ACC : Accumulator F V U)
    (src : Index -> V) (basisStencils : StencilTables) (stencilIndex : Z)
    (s t : F) (Q Qd1 Qd2 : ptr F) (dst : U) :
  let ss := #1 - s in
  let tt := #1 - t in
  let ratios (a b : F) : F * F :=
    if a + b == #0 then (a / #1, b / #1) else (a / (a + b), b / (a + b)) in
  let blend (v0 v1 : Z) (w : F * F) := Blend v0 v1 (fst w) (snd w) in
  let slots :=
    [ Single 0; Single 1; Single 7; Single 5;
      Single 2; blend 3%Z 4%Z (ratios s t);
        blend 9%Z 8%Z (ratios ss t); Single 6;
      Single 16; blend 19%Z 18%Z (ratios s tt);
        blend 13%Z 14%Z (ratios ss tt); Single 12;
      Single 15; Single 17; Single 11; Single 10 ] in
  (length (filter (fun sl => negb (isBlend sl)) slots) = 12%nat /\
   length (filter isBlend slots) = 4%nat) /\
  InterpolateGregoryPatch src basisStencils stencilIndex s t Q Qd1 Qd2 dst =
  Returns
    (replay (slotsCalls src basisStencils stencilIndex Q Qd1 Qd2 slots) dst).
Proof.
  intros ss tt ratios blend slots. split.
  - split; reflexivity.
  - rewrite InterpolateGregoryPatch_slots.
    subst slots blend ratios. unfold gregoryDenominators. fold ss tt.
    destruct (s + t == #0), (ss + t == #0), (s + tt == #0), (ss + tt == #0);
      reflexivity.
Qed.

(** C4, counterexample in binary32: at the corner (0,0) the ratio s/(s+t) is
    0.0/0.0, a NaN, and the first blend weight of [InterpolateGregoryPatch]
    is 0.0; the three other sub-quadrants, whose sums are 1.0, 1.0 and 2.0,
    keep their ratios there. *)
Lemma gregory_ratio_undefined_at_corner :
  let zero : Binary32.float := #0 in
  let one : Binary32.float := #1 in
  gregorySums zero zero = [ zero; one; one; #2 ] /\
  gregoryWeights zero zero =
  [ (zero, zero); (one, zero); (zero, one); (Example.half, Example.half) ] /\
  zero / (zero + zero) = S754_nan /\
  fst (nth 0 (gregoryWeights zero zero) (one, one)) <> zero / (zero + zero).
Proof.
  vm_compute. repeat split. discriminate.
Qed.

(** The guard on the denominators: whenever 1.0 differs from 0.0, none of
    the four divisors is zero. *)
Lemma gregoryDenominators_nonzero (F : Type) (SF : Scalar F) (s t : F) :
  (#1 == #0) = false ->
  let '(d11, d12, d21, d22) := gregoryDenominators s t in
  (d11 == #0) = false /\ (d12 == #0) = false /\
  (d21 == #0) = false /\ (d22 == #0) = false.
Proof.
  intros H1. unfold gregoryDenominators.
  repeat split;
    match goal with
    | |- ((if ?c then _ else _) == _) = false =>
        destruct c eqn:E; [ exact H1 | exact E ]
    end.
Qed.

(** C1, amended: for every (s,t), in binary32 as in exact
    arithmetic, none of the four divisors is zero; at each corner of the unit
    square the sum that vanishes is replaced by the divisor 1.0, and the two
    blend weights over it are exactly 0.0: the divisor is pinned to 1.0, the
    ratio is not. *)
Theorem gregory_divisors_guarded :
  (forall s t : Binary32.float,
     let '(d11, d12, d21, d22) := gregoryDenominators s t in
     (d11 == #0) = false /\ (d12 == #0) = false /\
     (d21 == #0) = false /\ (d22 == #0) = false) /\
  (forall s t : Qc,
     let '(d11, d12, d21, d22) := gregoryDenominators s t in
     (d11 == #0) = false /\ (d12 == #0) = false /\
     (d21 == #0) = false /\ (d22 == #0) = false) /\
  (let zero : Binary32.float := #0 in
   let one : Binary32.float := #1 in
   let d s t := let '(d11, d12, d21, d22) := gregoryDenominators s t in
                arr zero [d11; d12; d21; d22] in
   let w s t := arr (zero, zero) (gregoryWeights s t) in
   (nth 0 (gregorySums zero zero) one = zero /\
    d zero zero 0%nat = one /\ w zero zero 0%nat = (zero, zero)) /\
   (nth 1 (gregorySums one zero) one = zero /\
    d one zero 1%nat = one /\ w one zero 1%nat = (zero, zero)) /\
   (nth 2 (gregorySums zero one) one = zero /\
    d zero one 2%nat = one /\ w zero one 2%nat = (zero, zero)) /\
   (nth 3 (gregorySums one one) one = zero /\
    d one one 3%nat = one /\ w one one 3%nat = (zero, zero))).
Proof.
  split; [ | split ].
  - intros s t. apply gregoryDenominators_nonzero. reflexivity.
  - intros s t. apply gregoryDenominators_nonzero. reflexivity.
  - vm_compute. repeat split.
Qed.

(** C1, counterexample: at the corner (0,0), where s and s+t both vanish,
    the split ratio s/d11 evaluates to 0.0, not to 1.0. *)
Lemma gregory_ratio_is_not_pinned :
  let zero : Binary32.float := #0 in
  nth 0 (gregorySums zero zero) #1 = zero /\
  fst (nth 0 (gregoryWeights zero zero) (#1, #1)) = zero /\
  fst (nth 0 (gregoryWeights zero zero) (#1, #1)) <> #1.
Proof.
  vm_compute. repeat split. discriminate.
Qed.

(** ** Rounding in binary32: sums and differences that cannot vanish *)

Section Binary32Rounding.
Import Binary32.
Local Open Scope Z_scope.
















End Binary32Rounding.




(** ** Blend pairs in exact arithmetic *)






(** ** Calls with zero weights in binary32 *)

Lemma add_nan_r (x : Binary32.float) : Binary32.add x S754_nan = S754_nan.
Proof. destruct x; reflexivity. Qed.

Lemma add_nan_l (x : Binary32.float) : Binary32.add S754_nan x = S754_nan.
Proof. reflexivity. Qed.











(** ** The entry points *)

Section EntryPoints.
Context {F : Type} {SF : Scalar F}.
Context {PatchArray PatchParamTable PatchParam BitField : Type}.
Context {PatchDescriptor IndexArray : Type}.
Context {V U : Type} {ACC : Accumulator F V U}.

Variable D : @Declared F PatchArray PatchParamTable PatchParam BitField
                      PatchDescriptor IndexArray.
Variable src : Index -> V.

Ltac run_Limit :=
  unfold Limit, assert_that;
  repeat match goal with
  | |- context [Normalize ?d ?b ?s ?t] => destruct (Normalize d b s t)
  | |- context [getBasisWeightsAtUV ?d ?b ?bits ?s ?t] =>
      destruct (getBasisWeightsAtUV d b bits s t) as [[? ?] ?]
  end.

Ltac by_type :=
  repeat match goal with
  | |- context [(?a <=? ?b)%Z] => destruct (Z.leb_spec a b)
  | |- context [(?a =? ?b)%Z] => destruct (Z.eqb_spec a b)
  end; cbn [andb orb]; try reflexivity; try discriminate; try lia.

(* The Gregory-basis branch: a null stencil table fails its own
   assertion; otherwise the patch is interpolated and the call returns. *)
Ltac gregory_case :=
  match goal with
  | |- context [_endcapStencilTables ?pt] =>
      destruct (_endcapStencilTables pt);
      [ rewrite InterpolateGregoryPatch_slots | ]; discriminate
  end.

(** C5: on a patch of type SINGLE_CREASE, [Limit] clears the destination
    and makes no [AddWithWeight] call: whatever the destination, it is
    returned exactly as [Clear] left it. *)
Theorem Limit_single_crease
    (pt : @PatchTables F PatchArray PatchParamTable) (handle : PatchHandle)
    (s t : F) (dst : U) :
  declared_in_order (TYPE D) ->
  IsFeatureAdaptive D pt = true ->
  patchType D pt handle = SINGLE_CREASE (TYPE D) ->
  Limit D src pt handle s t dst = Returns (Clear dst).
Proof.
  intros (H1 & H2 & H3) HFA Hty.
  run_Limit. rewrite HFA, Hty. by_type.
Qed.

(** C7: [Interpolate] on a feature-adaptive store, and [Limit] on a store
    that is not, fail their first assertion; on a store that is not
    feature adaptive [Interpolate] returns, and on a feature-adaptive store
    [Limit] does not fail that assertion. *)
Theorem entry_point_preconditions
    (pt : @PatchTables F PatchArray PatchParamTable) (handle : PatchHandle)
    (s t : F) (dst : U) :
  (IsFeatureAdaptive D pt = true ->
   Interpolate D src pt handle s t dst = Aborts Assert_not_IsFeatureAdaptive) /\
  (IsFeatureAdaptive D pt = false ->
   exists dst', Interpolate D src pt handle s t dst = Returns dst') /\
  (IsFeatureAdaptive D pt = false ->
   Limit D src pt handle s t dst = Aborts Assert_IsFeatureAdaptive) /\
  (IsFeatureAdaptive D pt = true ->
   Limit D src pt handle s t dst <> Aborts Assert_IsFeatureAdaptive).
Proof.
  split; [ | split; [ | split ] ].
  - intros HFA. unfold Interpolate, assert_that. rewrite HFA. reflexivity.
  - intros HFA. unfold Interpolate, assert_that. rewrite HFA. cbn [negb].
    destruct (Normalize D _ s t). eexists. reflexivity.
  - intros HFA. unfold Limit, assert_that. rewrite HFA. reflexivity.
  - intros HFA. run_Limit. rewrite HFA. by_type; gregory_case.
Qed.

(** C8: on a feature-adaptive store, inside the bicubic branch [Limit] fails
    [assert(0)] on every type that is not one of the four it interpolates
    (the labels GREGORY and GREGORY_BOUNDARY and the default); with the
    enumerators in their declared order it fails [assert(0)] on GREGORY, on
    GREGORY_BOUNDARY and on every type other than REGULAR, SINGLE_CREASE,
    BOUNDARY, CORNER and GREGORY_BASIS, and on these five it never fails
    [assert(0)]. *)
Theorem Limit_unsupported_types
    (pt : @PatchTables F PatchArray PatchParamTable) (handle : PatchHandle)
    (s t : F) (dst : U) :
  let E := TYPE D in
  let ptype := patchType D pt handle in
  let supported :=
    [ REGULAR E; SINGLE_CREASE E; BOUNDARY E; CORNER E; GREGORY_BASIS E ] in
  (IsFeatureAdaptive D pt = true ->
   (REGULAR E <= ptype <= CORNER E)%Z ->
   ~ In ptype [ REGULAR E; SINGLE_CREASE E; BOUNDARY E; CORNER E ] ->
   Limit D src pt handle s t dst = Aborts Assert_0) /\
  (declared_in_order E ->
   IsFeatureAdaptive D pt = true ->
   ptype = GREGORY E \/ ptype = GREGORY_BOUNDARY E \/ ~ In ptype supported ->
   Limit D src pt handle s t dst = Aborts Assert_0) /\
  (declared_in_order E ->
   In ptype supported ->
   Limit D src pt handle s t dst <> Aborts Assert_0).
Proof.
  intros E ptype supported. subst supported ptype E. cbn [In].
  split; [ | split ].
  - intros HFA Hrange Hty. run_Limit. rewrite HFA.
    by_type; try (exfalso; intuition lia).
  - intros (H1 & H2 & H3) HFA Hty. run_Limit. rewrite HFA.
    by_type; try (exfalso; intuition lia).
  - intros (H1 & H2 & H3) Hty. run_Limit.
    destruct (IsFeatureAdaptive D pt); [ | discriminate ].
    by_type; try gregory_case; exfalso; intuition lia.
Qed.

End EntryPoints.

(** ** The theorems at the small instance *)

Lemma types_declared_in_order : declared_in_order Example.types.
Proof. unfold declared_in_order. cbn. lia. Defined.

(** C5 on a store of single-crease patches. *)
Lemma Limit_single_crease_witness :
  let pt := Example.tables 7 in
  let dst := Example.frame 1 2 3 in
  declared_in_order Example.types /\
  IsFeatureAdaptive Example.declared pt = true /\
  patchType Example.declared pt Example.handle = 7%Z /\
  Limit Example.declared Example.source pt Example.handle
        Example.quarter Example.half dst = Returns (Clear dst).
Proof.
  intros pt dst.
  split; [ exact types_declared_in_order | ].
  split; [ reflexivity | ].
  split; [ reflexivity | ].
  apply (Limit_single_crease Example.declared Example.source pt Example.handle
           Example.quarter Example.half dst);
    [ exact types_declared_in_order | reflexivity | reflexivity ].
Defined.

(** C7 on a uniform store and on a store of regular patches. *)
Lemma entry_point_preconditions_witness :
  let uniform := Example.tables Example.QUADS in
  let adaptive := Example.tables 6 in
  let dst := Example.frame 1 2 3 in
  let Interpolate_ pt :=
    Interpolate Example.declared Example.source pt Example.handle
                Example.quarter Example.half dst in
  let Limit_ pt :=
    Limit Example.declared Example.source pt Example.handle
          Example.quarter Example.half dst in
  IsFeatureAdaptive Example.declared uniform = false /\
  IsFeatureAdaptive Example.declared adaptive = true /\
  Interpolate_ adaptive = Aborts Assert_not_IsFeatureAdaptive /\
  (exists dst', Interpolate_ uniform = Returns dst') /\
  Limit_ uniform = Aborts Assert_IsFeatureAdaptive /\
  Limit_ adaptive <> Aborts Assert_IsFeatureAdaptive.
Proof.
  intros uniform adaptive dst Interpolate_ Limit_.
  assert (Hu : IsFeatureAdaptive Example.declared uniform = false)
    by reflexivity.
  assert (Ha : IsFeatureAdaptive Example.declared adaptive = true)
    by reflexivity.
  destruct (entry_point_preconditions Example.declared Example.source
              uniform Example.handle Example.quarter Example.half dst)
    as (_ & Iu & Lu & _).
  destruct (entry_point_preconditions Example.declared Example.source
              adaptive Example.handle Example.quarter Example.half dst)
    as (Ia & _ & _ & La).
  split; [ exact Hu | ].
  split; [ exact Ha | ].
  split; [ exact (Ia Ha) | ].
  split; [ exact (Iu Hu) | ].
  split; [ exact (Lu Hu) | exact (La Ha) ].
Defined.

(** C8 on stores of Gregory, Gregory-boundary, triangle, regular and
    Gregory-basis patches, and, under a numbering that puts GREGORY inside
    the range REGULAR..CORNER, on a store of Gregory patches. *)
Lemma Limit_unsupported_types_witness :
  let dst := Example.frame 1 2 3 in
  let Limit_ ty :=
    Limit Example.declared Example.source (Example.tables ty) Example.handle
          Example.quarter Example.half dst in
  let spread := Example.declared_with Example.spread_types in
  declared_in_order Example.types /\
  Limit_ 10%Z = Aborts Assert_0 /\
  Limit_ 11%Z = Aborts Assert_0 /\
  Limit_ 4%Z = Aborts Assert_0 /\
  Limit_ 6%Z <> Aborts Assert_0 /\
  Limit_ 12%Z <> Aborts Assert_0 /\
  (REGULAR (TYPE spread) <= GREGORY (TYPE spread) <= CORNER (TYPE spread))%Z /\
  Limit spread Example.source (Example.tables (GREGORY (TYPE spread)))
        Example.handle Example.quarter Example.half dst = Aborts Assert_0.
Proof.
  intros dst Limit_ spread.
  pose proof (fun ty =>
    Limit_unsupported_types Example.declared Example.source
      (Example.tables ty) Example.handle Example.quarter Example.half dst)
    as H.
  split; [ exact types_declared_in_order | ].
  split; [ apply (proj1 (proj2 (H 10%Z)));
           [ exact types_declared_in_order | reflexivity
           | left; reflexivity ] | ].
  split; [ apply (proj1 (proj2 (H 11%Z)));
           [ exact types_declared_in_order | reflexivity
           | right; left; reflexivity ] | ].
  split; [ apply (proj1 (proj2 (H 4%Z)));
           [ exact types_declared_in_order | reflexivity | right; right ] | ].
  { cbn. intros [ E | [ E | [ E | [ E | [ E | [] ] ] ] ] ]; discriminate E. }
  split; [ apply (proj2 (proj2 (H 6%Z)));
           [ exact types_declared_in_order | left; reflexivity ] | ].
  split; [ apply (proj2 (proj2 (H 12%Z)));
           [ exact types_declared_in_order
           | do 4 right; left; reflexivity ] | ].
  assert (Hrange : (REGULAR (TYPE spread) <= GREGORY (TYPE spread)
                    <= CORNER (TYPE spread))%Z) by (cbn; lia).
  split; [ exact Hrange | ].
  apply (proj1 (Limit_unsupported_types spread Example.source
                  (Example.tables (GREGORY (TYPE spread))) Example.handle
                  Example.quarter Example.half dst));
    [ reflexivity | exact Hrange | ].
  cbn. intros [ E | [ E | [ E | [ E | [] ] ] ] ]; discriminate E.
Defined.


(** ** Beyond the claims: what the patches compute *)

Ltac run_loops :=
  cbv [InterpolateBilinear bilinearWeights InterpolateRegularPatch
       InterpolateBoundaryPatch InterpolateCornerPatch for_loop seq
       fold_left Nat.sub Nat.add Nat.mul arr nth AddWithWeight Clear Summing
       point deriv1 deriv2 sumTo map].

(** X1: in exact arithmetic [InterpolateBilinear] on a cleared destination
    gives the bilinear interpolant
    (1-t)((1-s) v0 + s v1) + t((1-s) v3 + s v2) of the four control values;
    its two derivative outputs are the exact rates of change of the point in
    s and in t, P(s+h,t) = P(s,t) + h D1(s,t) and
    P(s,t+h) = P(s,t) + h D2(s,t); at the corners (0,0), (1,0), (1,1), (0,1)
    the point is v0, v1, v2, v3. *)
Theorem bilinear_interpolates (src : Index -> Qc) (cvs : ptr Index)
    (dst : LimitFrame Qc) :
  let v k := src (cvs k) in
  let P s t := point (InterpolateBilinear src cvs s t (Clear dst)) in
  let D1 s t := deriv1 (InterpolateBilinear src cvs s t (Clear dst)) in
  let D2 s t := deriv2 (InterpolateBilinear src cvs s t (Clear dst)) in
  (forall s t : Qc,
     P s t = (#1 - t) * ((#1 - s) * v 0%nat + s * v 1%nat)
             + t * ((#1 - s) * v 3%nat + s * v 2%nat)) /\
  (forall s t h : Qc, P (s + h) t = P s t + h * D1 s t) /\
  (forall s t h : Qc, P s (t + h) = P s t + h * D2 s t) /\
  (P #0 #0 = v 0%nat /\ P #1 #0 = v 1%nat /\
   P #1 #1 = v 2%nat /\ P #0 #1 = v 3%nat).
Proof.
  intros v P D1 D2. subst v P D1 D2. cbv beta.
  repeat split; intros; run_loops; exact_arith; ring.
Qed.


(** ** Bilinear patches in binary32 *)

Section Binary32Products.
Import Binary32.
Local Open Scope Z_scope.

(** The product of 1.0 and a finite number is that number. *)
Lemma binary_round_aux_one (sx : bool) (m : positive) (e : Z) :
  bounded prec emax m e = true ->
  binary_round_aux prec emax sx (Zpos (8388608 * m)) (-23 + e) loc_Exact =
  S754_finite sx m e.
Proof.
  intros Hb. unfold bounded, canonical_mantissa in Hb.
  apply andb_prop in Hb. destruct Hb as [Hc He].
  apply Z.eqb_eq in Hc. apply Z.leb_le in He.
  unfold fexp in Hc. change (SpecFloat.emin prec emax) with emin in Hc.
  unfold binary_round_aux, shr_fexp.
  cbn [Pos.mul Zdigits2 digits2_pos shr_record_of_loc].
  match goal with
  | |- context [fexp prec emax (Zpos ?p + (-23 + e)) - (-23 + e)] =>
      assert (E1 : fexp prec emax (Zpos p + (-23 + e)) - (-23 + e) = 23)
  end.
  { unfold fexp. change (SpecFloat.emin prec emax) with emin.
    rewrite !Pos2Z.inj_succ. unfold prec in *. lia. }
  rewrite E1.
  cbn [shr iter_pos shr_1 orb shr_m loc_of_shr_record round_nearest_even].
  replace (-23 + e + 23) with e by lia.
  cbn [Zdigits2 shr_record_of_loc].
  assert (E2 : fexp prec emax (Zpos (digits2_pos m) + e) - e = 0).
  { unfold fexp. change (SpecFloat.emin prec emax) with emin. lia. }
  rewrite E2. cbn [shr shr_m].
  apply Z.leb_le in He. rewrite He. reflexivity.
Qed.
End Binary32Products.

Lemma mul_one_finite (v : Binary32.float) :
  Binary32.valid v = true -> Binary32.is_finite v = true ->
  Binary32.mul Binary32.one v = v.
Proof.
  destruct v as [ s | s | | s m e ]; try discriminate; intros Hv _.
  - reflexivity.
  - unfold Binary32.mul, Binary32.one, SFmul. cbn [xorb].
    change (-23 + e)%Z with (-23 + e)%Z.
    apply (binary_round_aux_one s m e Hv).
Qed.

Lemma mul_zero_not_finite (v : Binary32.float) :
  Binary32.is_finite v = false -> Binary32.mul Binary32.zero v = S754_nan.
Proof. destruct v; try discriminate; reflexivity. Qed.

(** The weights of [InterpolateBilinear] at the four corners. *)
Lemma bilinearWeights_corners :
  let zero := Binary32.zero in
  let one := Binary32.one in
  fst (fst (bilinearWeights (#0 : Binary32.float) #0)) = [one; zero; zero; zero] /\
  fst (fst (bilinearWeights (#1 : Binary32.float) #0)) = [zero; one; zero; zero] /\
  fst (fst (bilinearWeights (#1 : Binary32.float) #1)) = [zero; zero; one; zero] /\
  fst (fst (bilinearWeights (#0 : Binary32.float) #1)) = [zero; zero; zero; one].
Proof. vm_compute. repeat split. Qed.

Lemma point_InterpolateBilinear (src : Index -> Binary32.float)
    (cvs : ptr Index) (s t : Binary32.float) (dst : LimitFrame Binary32.float) :
  point (InterpolateBilinear src cvs s t (Clear dst)) =
  fold_left (fun p k =>
               p + nth k (fst (fst (bilinearWeights s t))) #0 * src (cvs k))
            (seq 0 4) #0.
Proof.
  unfold InterpolateBilinear.
  destruct (bilinearWeights s t) as [[Q dQ1] dQ2]. reflexivity.
Qed.

(** X2: in binary32, with four finite control values,
    [InterpolateBilinear] on a cleared destination returns at the corners
    (0,0), (1,0), (1,1), (0,1) exactly the control values v0, v1, v2, v3, no
    rounding taking place, except that a control value -0.0 comes out
    as +0.0. *)
Theorem bilinear_corners_are_exact (src : Index -> Binary32.float)
    (cvs : ptr Index) (dst : LimitFrame Binary32.float) :
  let v k := src (cvs k) in
  let P s t := point (InterpolateBilinear src cvs s t (Clear dst)) in
  (forall k, (k < 4)%nat ->
     Binary32.valid (v k) = true /\ Binary32.is_finite (v k) = true) ->
  P #0 #0 = unsignedZero (v 0%nat) /\ P #1 #0 = unsignedZero (v 1%nat) /\
  P #1 #1 = unsignedZero (v 2%nat) /\ P #0 #1 = unsignedZero (v 3%nat).
Proof.
  intros v P H. subst P. cbv beta.
  destruct bilinearWeights_corners as (W00 & W10 & W11 & W01).
  rewrite !point_InterpolateBilinear, W00, W10, W11, W01.
  cbv [seq fold_left nth]. subst v. cbv beta in *.
  destruct (H 0%nat ltac:(lia)) as [V0 F0].
  destruct (H 1%nat ltac:(lia)) as [V1 F1].
  destruct (H 2%nat ltac:(lia)) as [V2 F2].
  destruct (H 3%nat ltac:(lia)) as [V3 F3].
  clear H. cbv [fadd fmul fconst Scalar_binary32].
  rewrite (mul_one_finite _ V0 F0), (mul_one_finite _ V1 F1),
          (mul_one_finite _ V2 F2), (mul_one_finite _ V3 F3).
  clear V0 V1 V2 V3.
  change (Binary32.of_Z 0) with Binary32.zero.
  generalize dependent (src (cvs 0%nat)).
  generalize dependent (src (cvs 1%nat)).
  generalize dependent (src (cvs 2%nat)).
  generalize dependent (src (cvs 3%nat)).
  intros v3 F3 v2 F2 v1 F1 v0 F0.
  destruct v0 as [ [ | ] | | | ? ? ? ]; try discriminate F0;
  destruct v1 as [ [ | ] | | | ? ? ? ]; try discriminate F1;
  destruct v2 as [ [ | ] | | | ? ? ? ]; try discriminate F2;
  destruct v3 as [ [ | ] | | | ? ? ? ]; try discriminate F3;
  repeat split;
  repeat match goal with b : bool |- _ => destruct b end; reflexivity.
Qed.

(** X3: in binary32, [InterpolateBilinear] at a corner of the unit square
    returns NaN as soon as one of the three other control values is an
    infinity or a NaN: its weight is 0.0 and the product 0.0 * v is NaN. *)
Theorem bilinear_corners_are_poisoned (src : Index -> Binary32.float)
    (cvs : ptr Index) (dst : LimitFrame Binary32.float) :
  let v k := src (cvs k) in
  let P s t := point (InterpolateBilinear src cvs s t (Clear dst)) in
  let bad k := Binary32.is_finite (v k) = false in
  (bad 1%nat \/ bad 2%nat \/ bad 3%nat -> P #0 #0 = S754_nan) /\
  (bad 0%nat \/ bad 2%nat \/ bad 3%nat -> P #1 #0 = S754_nan) /\
  (bad 0%nat \/ bad 1%nat \/ bad 3%nat -> P #1 #1 = S754_nan) /\
  (bad 0%nat \/ bad 1%nat \/ bad 2%nat -> P #0 #1 = S754_nan).
Proof.
  intros v P bad. subst v P bad. cbv beta.
  destruct bilinearWeights_corners as (W00 & W10 & W11 & W01).
  rewrite !point_InterpolateBilinear, W00, W10, W11, W01.
  cbv [seq fold_left nth fadd fmul fconst Scalar_binary32].
  repeat split; intros [ H | [ H | H ] ];
    rewrite (mul_zero_not_finite _ H);
    rewrite ?add_nan_r, ?add_nan_l; reflexivity.
Qed.

(** What the three bicubic patches make of constant data: the frame moves
    by the value under the sums of the sixteen weights. *)
Lemma bicubic_on_constant_data (c : Qc) (src : Index -> Qc)
    (cvs : ptr Index) (Q Qd1 Qd2 : ptr Qc) (dst : LimitFrame Qc) :
  let sums := moved dst c (sumTo 16 Q) (sumTo 16 Qd1) (sumTo 16 Qd2) in
  ((forall k, (k < 16)%nat -> src (cvs k) = c) ->
   InterpolateRegularPatch src cvs Q Qd1 Qd2 dst = sums) /\
  ((forall k, (k < 12)%nat -> src (cvs k) = c) ->
   InterpolateBoundaryPatch src cvs Q Qd1 Qd2 dst = sums) /\
  ((forall k, (k < 9)%nat -> src (cvs k) = c) ->
   InterpolateCornerPatch src cvs Q Qd1 Qd2 dst = sums).
Proof.
  intros sums. subst sums. destruct dst as [p d1 d2].
  repeat split; intros Hc; run_loops; unfold moved; run_loops;
    rewrite ?Hc by lia; exact_arith; f_equal; ring.
Qed.

Lemma moved_from_clear (c : Qc) (dst : LimitFrame Qc) (w w1 w2 : Qc) :
  w = #1 -> w1 = #0 -> w2 = #0 ->
  moved (Clear dst) c w w1 w2 = {| point := c; deriv1 := #0; deriv2 := #0 |}.
Proof.
  intros -> -> ->. unfold moved. cbv [Clear Summing point deriv1 deriv2].
  exact_arith. f_equal; ring.
Qed.

(** X4: in exact arithmetic, with sixteen basis weights that add up to 1
    and derivative weights that add up to 0, [InterpolateRegularPatch],
    [InterpolateBoundaryPatch] and [InterpolateCornerPatch] on a cleared
    destination return the value c with zero derivatives when their 16, 12
    and 9 control vertices all hold c: the mirrored vertices of the boundary
    and corner patches take no weight away and add none. *)
Theorem bicubic_patches_reproduce_constants (c : Qc) (src : Index -> Qc)
    (cvs : ptr Index) (Q Qd1 Qd2 : ptr Qc) (dst : LimitFrame Qc) :
  sumTo 16 Q = #1 -> sumTo 16 Qd1 = #0 -> sumTo 16 Qd2 = #0 ->
  let flat := {| point := c; deriv1 := #0; deriv2 := #0 |} in
  ((forall k, (k < 16)%nat -> src (cvs k) = c) ->
   InterpolateRegularPatch src cvs Q Qd1 Qd2 (Clear dst) = flat) /\
  ((forall k, (k < 12)%nat -> src (cvs k) = c) ->
   InterpolateBoundaryPatch src cvs Q Qd1 Qd2 (Clear dst) = flat) /\
  ((forall k, (k < 9)%nat -> src (cvs k) = c) ->
   InterpolateCornerPatch src cvs Q Qd1 Qd2 (Clear dst) = flat).
Proof.
  intros HQ HQ1 HQ2 flat. subst flat.
  destruct (bicubic_on_constant_data c src cvs Q Qd1 Qd2 (Clear dst))
    as (HR & HB & HC).
  repeat split; intros Hc;
    [ rewrite HR by exact Hc | rewrite HB by exact Hc
    | rewrite HC by exact Hc ];
    apply moved_from_clear; assumption.
Qed.

Lemma exact_three : Q2Qc (Qmake 3 1) = (1 + 1 + 1)%Qc.
Proof. apply Qc_is_canon. reflexivity. Qed.

(** X5: in exact arithmetic, when the 4x4 grid of control values lies on
    a plane a + b x + d y, [InterpolateBoundaryPatch] on its rows 1..3 and
    [InterpolateCornerPatch] on the rows 1..3 of its columns 0..2 give the
    result of [InterpolateRegularPatch] on the whole grid, for every weight
    table and destination: the mirrored vertices are the missing ones. *)
Theorem mirroring_is_exact_on_planes (a b d : Qc) (Q Qd1 Qd2 : ptr Qc)
    (dst : LimitFrame Qc) :
  let g := planeGrid a b d in
  let regular :=
    InterpolateRegularPatch (gridSource g) gridIndices Q Qd1 Qd2 dst in
  InterpolateBoundaryPatch (gridSource (boundaryStored g)) gridIndices
    Q Qd1 Qd2 dst = regular /\
  InterpolateCornerPatch (gridSource (cornerStored g)) gridIndices
    Q Qd1 Qd2 dst = regular.
Proof.
  intros g regular. subst g regular. destruct dst as [p d1 d2].
  split; run_loops;
    cbv [gridSource gridIndices boundaryStored cornerStored planeGrid];
    rewrite ?Nat2Z.id;
    cbn [Nat.add Nat.mul Nat.modulo Nat.div Nat.divmod fst snd Nat.sub
         Z.of_nat Pos.of_succ_nat Pos.succ];
    exact_arith; rewrite ?exact_three;
    change (Q2Qc (Qmake 0 1)) with 0%Qc; f_equal; ring.
Qed.

(** X6: in exact arithmetic and on a cleared destination,
    [InterpolateBilinear], [InterpolateRegularPatch],
    [InterpolateBoundaryPatch] and [InterpolateCornerPatch] are linear in
    the source data: on the buffer a*src1 + b*src2 the point and both
    derivatives are a times those on src1 plus b times those on src2. *)
Theorem patches_are_linear_in_the_data (a b : Qc) (src1 src2 : Index -> Qc)
    (cvs : ptr Index) (Q Qd1 Qd2 : ptr Qc) (dst : LimitFrame Qc) :
  let mix := fun i => (a * src1 i + b * src2 i)%Qc in
  let zero := Clear dst in
  (forall s t,
     InterpolateBilinear mix cvs s t zero =
     blendFrames a (InterpolateBilinear src1 cvs s t zero)
                 b (InterpolateBilinear src2 cvs s t zero)) /\
  InterpolateRegularPatch mix cvs Q Qd1 Qd2 zero =
  blendFrames a (InterpolateRegularPatch src1 cvs Q Qd1 Qd2 zero)
              b (InterpolateRegularPatch src2 cvs Q Qd1 Qd2 zero) /\
  InterpolateBoundaryPatch mix cvs Q Qd1 Qd2 zero =
  blendFrames a (InterpolateBoundaryPatch src1 cvs Q Qd1 Qd2 zero)
              b (InterpolateBoundaryPatch src2 cvs Q Qd1 Qd2 zero) /\
  InterpolateCornerPatch mix cvs Q Qd1 Qd2 zero =
  blendFrames a (InterpolateCornerPatch src1 cvs Q Qd1 Qd2 zero)
              b (InterpolateCornerPatch src2 cvs Q Qd1 Qd2 zero).
Proof.
  intros mix zero. subst mix zero.
  repeat split; intros; unfold blendFrames; run_loops;
    exact_arith; f_equal; ring.
Qed.

(** X7: for any scalar and destination, [InterpolateBilinear] reads the
    entries 0..3 of the index array only, [InterpolateRegularPatch] the
    entries 0..15, [InterpolateBoundaryPatch] the entries 0..11 and
    [InterpolateCornerPatch] the entries 0..8: index arrays that agree there
    give the same result. *)
Theorem patches_read_their_vertices_only
    (F : Type) (SF : Scalar F) (V U : Type) (ACC : Accumulator F V U)
    (src : Index -> V) (cvs cvs' : ptr Index) (dst : U) :
  (sameTo 4 cvs cvs' ->
   forall s t, InterpolateBilinear src cvs s t dst =
               InterpolateBilinear src cvs' s t dst) /\
  (sameTo 16 cvs cvs' ->
   forall Q Qd1 Qd2, InterpolateRegularPatch src cvs Q Qd1 Qd2 dst =
                     InterpolateRegularPatch src cvs' Q Qd1 Qd2 dst) /\
  (sameTo 12 cvs cvs' ->
   forall Q Qd1 Qd2, InterpolateBoundaryPatch src cvs Q Qd1 Qd2 dst =
                     InterpolateBoundaryPatch src cvs' Q Qd1 Qd2 dst) /\
  (sameTo 9 cvs cvs' ->
   forall Q Qd1 Qd2, InterpolateCornerPatch src cvs Q Qd1 Qd2 dst =
                     InterpolateCornerPatch src cvs' Q Qd1 Qd2 dst).
Proof.
  unfold sameTo.
  split; [ | split; [ | split ] ]; intros H; intros;
    cbv [InterpolateBilinear bilinearWeights InterpolateRegularPatch
         InterpolateBoundaryPatch InterpolateCornerPatch for_loop seq
         fold_left Nat.sub Nat.add Nat.mul];
    rewrite !H by lia; reflexivity.
Qed.

(** X8: [InterpolateBoundaryPatch] and [InterpolateCornerPatch] read the
    entries 0..15 of the three weight tables and no other: tables that agree
    on them give the same calls, and the last entry is read, since changing
    Q[15] changes the calls of the boundary patch and changing Q[14] those of
    the corner patch.  (The header's comments announce arrays of 12 and of 9
    weights.) *)
Theorem mirrored_patches_read_sixteen_weights
    (F V : Type) (SF : Scalar F) (src : Index -> V) (cvs : ptr Index)
    (Q Q' Qd1 Qd1' Qd2 Qd2' : ptr F) :
  let none : list (Call F V) := [] in
  (sameTo 16 Q Q' -> sameTo 16 Qd1 Qd1' -> sameTo 16 Qd2 Qd2' ->
   InterpolateBoundaryPatch src cvs Q Qd1 Qd2 none =
   InterpolateBoundaryPatch src cvs Q' Qd1' Qd2' none /\
   InterpolateCornerPatch src cvs Q Qd1 Qd2 none =
   InterpolateCornerPatch src cvs Q' Qd1' Qd2' none) /\
  (Q 15%nat <> Q' 15%nat ->
   InterpolateBoundaryPatch src cvs Q Qd1 Qd2 none <>
   InterpolateBoundaryPatch src cvs Q' Qd1 Qd2 none) /\
  (Q 14%nat <> Q' 14%nat ->
   InterpolateCornerPatch src cvs Q Qd1 Qd2 none <>
   InterpolateCornerPatch src cvs Q' Qd1 Qd2 none).
Proof.
  intros none. subst none.
  pose (dflt := call (src (cvs 0%nat)) (Q 0%nat) (Q 0%nat) (Q 0%nat)).
  split; [ | split ].
  - unfold sameTo. intros H H1 H2.
    cbv [InterpolateBoundaryPatch InterpolateCornerPatch for_loop seq
         fold_left Nat.sub Nat.add Nat.mul].
    rewrite !H, !H1, !H2 by lia. split; reflexivity.
  - intros Hne Heq; apply Hne.
    apply (f_equal (fun calls => nth 19 calls dflt)) in Heq.
    cbv in Heq. injection Heq as E. exact E.
  - intros Hne Heq; apply Hne.
    apply (f_equal (fun calls => nth 24 calls dflt)) in Heq.
    cbv in Heq. injection Heq as E. exact E.
Qed.

(** ** The stencils of a Gregory-basis patch *)

Lemma length_stencilCalls (F V : Type) (SF : Scalar F) (src : Index -> V)
    (st : @Stencil F) (q q1 q2 : F) :
  length (stencilCalls src st q q1 q2) = Z.to_nat (GetSize st).
Proof. unfold stencilCalls. rewrite length_map, length_seq. reflexivity. Qed.

(** X9: [InterpolateGregoryPatch] reads the twenty stencils
    [stencilIndex] .. [stencilIndex + 19] and no other: stencil tables that
    agree on them give the same outcome; and the number of calls it makes to
    the destination is the sum of the sizes of these twenty stencils. *)
Theorem gregory_patch_reads_twenty_stencils
    (F : Type) (SF : Scalar F) (V U : Type) (ACC : Accumulator F V U)
    (src : Index -> V) (tables tables' : StencilTables) (stencilIndex : Z)
    (s t : F) (Q Qd1 Qd2 : ptr F) (dst : U) :
  ((forall k, (0 <= k < 20)%Z ->
      tables (stencilIndex + k)%Z = tables' (stencilIndex + k)%Z) ->
   InterpolateGregoryPatch src tables stencilIndex s t Q Qd1 Qd2 dst =
   InterpolateGregoryPatch src tables' stencilIndex s t Q Qd1 Qd2 dst) /\
  (exists calls : list (Call F V),
     InterpolateGregoryPatch src tables stencilIndex s t Q Qd1 Qd2 [] =
     Returns calls /\
     length calls =
     fold_right Nat.add 0%nat
       (map (fun k => Z.to_nat (GetSize (tables (stencilIndex + Z.of_nat k)%Z)))
            (seq 0 20))).
Proof.
  split.
  - intros H. rewrite !InterpolateGregoryPatch_slots.
    destruct (gregoryDenominators s t) as [[[d11 d12] d21] d22].
    cbv [slotsCalls length seq combine map concat slotCalls].
    rewrite !H by lia. reflexivity.
  - rewrite InterpolateGregoryPatch_slots.
    destruct (gregoryDenominators s t) as [[[d11 d12] d21] d22].
    eexists. split; [ reflexivity | ].
    cbv [slotsCalls length seq combine map concat slotCalls replay].
    rewrite !app_nil_r.
    assert (E : forall l : list (Call F V),
              fold_left (fun dst c => let 'call v w wd1 wd2 := c in
                                      AddWithWeight dst v w wd1 wd2) l [] = l).
    { intros l. rewrite <- (app_nil_l l) at 2. generalize (@nil (Call F V)).
      induction l as [ | [v w w1 w2] l IH ]; intros acc; cbn.
      - rewrite app_nil_r. reflexivity.
      - rewrite IH. rewrite <- app_assoc. reflexivity. }
    rewrite E. fold (@length (Call F V)).
    rewrite !length_app, !length_stencilCalls.
    cbn [fold_right map seq Z.of_nat Pos.of_succ_nat Pos.succ]. lia.
Qed.

(** ** Gregory-basis patches over constant data, in exact arithmetic *)

Lemma fold_left_Qcplus (l : list Qc) (a : Qc) :
  fold_left Qcplus l a = (a + fold_left Qcplus l 0)%Qc.
Proof.
  revert a. induction l as [ | x l IH ]; intros a; cbn [fold_left].
  - ring.
  - rewrite IH, (IH (0 + x)%Qc). ring.
Qed.

Lemma replay_stencilCalls_constant (c : Qc) (st : @Stencil Qc) (q q1 q2 : Qc)
    (dst : LimitFrame Qc) :
  replay (stencilCalls (fun _ : Index => c) st q q1 q2) dst =
  moved dst c (q * stencilWeightSum st) (q1 * stencilWeightSum st)
              (q2 * stencilWeightSum st).
Proof.
  unfold stencilCalls, stencilWeightSum, sumTo, fsum, replay.
  generalize (seq 0 (Z.to_nat (GetSize st))) as l. intros l. revert dst.
  induction l as [ | j l IH ]; intros [p d1 d2].
  - unfold moved. exact_arith. cbn. f_equal; ring.
  - cbn [map fold_left]. rewrite IH.
    cbv [fconst fadd fmul Scalar_exact] in *. rewrite exact_const.
    rewrite (fold_left_Qcplus _ (0 + _)%Qc).
    unfold moved. cbv [AddWithWeight Summing point deriv1 deriv2 fadd fmul
                       Scalar_exact].
    f_equal; ring.
Qed.

Lemma Qc_eq_bool_false (a b : Qc) : a <> b -> Qc_eq_bool a b = false.
Proof.
  intros H. destruct (Qc_eq_bool a b) eqn:E; [ | reflexivity ].
  apply Qc_eq_bool_correct in E. contradiction.
Qed.

Lemma Qc_neq (a b : Qc) : Qc_eq_bool a b = false -> a <> b.
Proof.
  intros H E. subst. unfold Qc_eq_bool in H.
  destruct (Qc_eq_dec b b); [ discriminate | contradiction ].
Qed.

Ltac gregory_on_constant HW :=
  rewrite InterpolateGregoryPatch_slots;
  cbv [gregoryDenominators slotsCalls length seq combine map concat
       slotCalls];
  rewrite ?replay_app, ?app_nil_r;
  rewrite !replay_stencilCalls_constant;
  rewrite !HW by lia;
  change (@replay Qc Qc _ _ []) with (fun d : LimitFrame Qc => d);
  cbv beta.

(** What a Gregory-basis patch makes of constant data away from the
    degenerate corners: the frame moves by the value under the sums of the
    sixteen weights. *)
Lemma gregory_on_constant_data (c : Qc) (tables : StencilTables)
    (stencilIndex : Z) (s t : Qc) (Q Qd1 Qd2 : ptr Qc) (dst : LimitFrame Qc) :
  (forall k, (0 <= k < 20)%Z ->
     stencilWeightSum (tables (stencilIndex + k)%Z) = #1) ->
  s + t <> #0 -> (#1 - s) + t <> #0 ->
  s + (#1 - t) <> #0 -> (#1 - s) + (#1 - t) <> #0 ->
  InterpolateGregoryPatch (fun _ => c) tables stencilIndex s t Q Qd1 Qd2 dst =
  Returns (moved dst c (sumTo 16 Q) (sumTo 16 Qd1) (sumTo 16 Qd2)).
Proof.
  intros HW H11 H12 H21 H22.
  gregory_on_constant HW.
  revert H11 H12 H21 H22. exact_arith. intros H11 H12 H21 H22.
  rewrite (Qc_eq_bool_false H11), (Qc_eq_bool_false H12),
          (Qc_eq_bool_false H21), (Qc_eq_bool_false H22).
  destruct dst as [p d1 d2].
  cbv [moved Summing point deriv1 deriv2 sumTo map seq].
  exact_arith. f_equal. f_equal; field; repeat split; assumption.
Qed.

(** X10: in exact arithmetic, when each of the twenty stencils has weights
    that add up to 1, the basis weights add up to 1 and the derivative
    weights to 0, [InterpolateGregoryPatch] on a cleared destination returns
    the value c with zero derivatives on a source that holds c everywhere,
    at every (s,t) where none of s+t, (1-s)+t, s+(1-t), (1-s)+(1-t)
    vanishes. *)
Theorem gregory_patch_reproduces_constants (c : Qc) (tables : StencilTables)
    (stencilIndex : Z) (s t : Qc) (Q Qd1 Qd2 : ptr Qc) (dst : LimitFrame Qc) :
  (forall k, (0 <= k < 20)%Z ->
     stencilWeightSum (tables (stencilIndex + k)%Z) = #1) ->
  sumTo 16 Q = #1 -> sumTo 16 Qd1 = #0 -> sumTo 16 Qd2 = #0 ->
  s + t <> #0 -> (#1 - s) + t <> #0 ->
  s + (#1 - t) <> #0 -> (#1 - s) + (#1 - t) <> #0 ->
  InterpolateGregoryPatch (fun _ => c) tables stencilIndex s t Q Qd1 Qd2
    (Clear dst) =
  Returns {| point := c; deriv1 := #0; deriv2 := #0 |}.
Proof.
  intros HW HQ HQ1 HQ2 H11 H12 H21 H22.
  rewrite (gregory_on_constant_data c tables stencilIndex Q Qd1 Qd2
             (Clear dst) HW H11 H12 H21 H22).
  f_equal. apply moved_from_clear; assumption.
Qed.

(** X11: at the four corners of the unit square the pinned divisor makes
    [InterpolateGregoryPatch] drop one basis weight.  In exact arithmetic,
    on a source that holds c everywhere and stencils whose weights add up to
    1, the result at (0,0), (1,0), (0,1), (1,1) is c times the sum of the
    sixteen weights less the weight 5, 6, 9, 10 respectively (likewise for
    both derivative sets): constants are reproduced there only if that
    weight is zero. *)
Theorem gregory_patch_at_degenerate_corners (c : Qc) (tables : StencilTables)
    (stencilIndex : Z) (Q Qd1 Qd2 : ptr Qc) (dst : LimitFrame Qc) :
  (forall k, (0 <= k < 20)%Z ->
     stencilWeightSum (tables (stencilIndex + k)%Z) = #1) ->
  let at_ (s t : Qc) :=
    InterpolateGregoryPatch (fun _ => c) tables stencilIndex s t Q Qd1 Qd2
      (Clear dst) in
  let short (i : nat) :=
    Returns {| point := c * (sumTo 16 Q - Q i);
               deriv1 := c * (sumTo 16 Qd1 - Qd1 i);
               deriv2 := c * (sumTo 16 Qd2 - Qd2 i) |} in
  at_ #0 #0 = short 5%nat /\ at_ #1 #0 = short 6%nat /\
  at_ #0 #1 = short 9%nat /\ at_ #1 #1 = short 10%nat.
Proof.
  intros HW at_ short. subst at_ short. cbv beta.
  assert (T : forall a b : Qc, Qc_eq_bool a b = true ->
              forall x y : Qc, (if a == b then x else y) = x)
    by (intros a b E x y; cbn [feqb Scalar_exact]; rewrite E; reflexivity).
  assert (N : forall a b : Qc, Qc_eq_bool a b = false ->
              forall x y : Qc, (if a == b then x else y) = y)
    by (intros a b E x y; cbn [feqb Scalar_exact]; rewrite E; reflexivity).
  repeat split; gregory_on_constant HW;
    repeat (first [ rewrite T by reflexivity | rewrite N by reflexivity ]);
    cbv [moved Clear Summing point deriv1 deriv2 sumTo map seq];
    exact_arith; f_equal; f_equal; field;
    repeat split; apply Qc_neq; reflexivity.
Qed.

Section EntryPointResults.
Context {F : Type} {SF : Scalar F}.
Context {PatchArray PatchParamTable PatchParam BitField : Type}.
Context {PatchDescriptor IndexArray : Type}.
Context {V U : Type} {ACC : Accumulator F V U}.
Variable D : @Declared F PatchArray PatchParamTable PatchParam BitField
                      PatchDescriptor IndexArray.
Variable src : Index -> V.

Ltac run_Limit :=
  unfold Limit, assert_that;
  repeat match goal with
  | |- context [Normalize ?d ?b ?s ?t] => destruct (Normalize d b s t)
  | |- context [getBasisWeightsAtUV ?d ?b ?bits ?s ?t] =>
      destruct (getBasisWeightsAtUV d b bits s t) as [[? ?] ?]
  end.

Ltac by_type :=
  repeat match goal with
  | |- context [(?a <=? ?b)%Z] => destruct (Z.leb_spec a b)
  | |- context [(?a =? ?b)%Z] => destruct (Z.eqb_spec a b)
  end; cbn [andb orb]; try reflexivity; try discriminate; try lia.

(** X12: with the enumerators in their declaration order, [Limit]
    returns exactly when the store is feature adaptive and the patch is
    REGULAR, SINGLE_CREASE, BOUNDARY or CORNER, or is GREGORY_BASIS with
    end-cap stencil tables present; on a GREGORY_BASIS patch of a
    feature-adaptive store without end-cap stencil tables it fails
    [assert(_endcapStencilTables)]. *)
Theorem Limit_returns_iff
    (pt : @PatchTables F PatchArray PatchParamTable) (handle : PatchHandle)
    (s t : F) (dst : U) :
  let E := TYPE D in
  let ptype := patchType D pt handle in
  declared_in_order E ->
  ((exists dst', Limit D src pt handle s t dst = Returns dst') <->
   IsFeatureAdaptive D pt = true /\
   (In ptype [ REGULAR E; SINGLE_CREASE E; BOUNDARY E; CORNER E ] \/
    (ptype = GREGORY_BASIS E /\ _endcapStencilTables pt <> None))) /\
  (IsFeatureAdaptive D pt = true -> ptype = GREGORY_BASIS E ->
   _endcapStencilTables pt = None ->
   Limit D src pt handle s t dst = Aborts Assert_endcapStencilTables).
Proof.
  intros E ptype (H1 & H2 & H3). subst E ptype. cbn [In]. split.
  - split.
    + intros [dst' Hret]. revert Hret. run_Limit.
      destruct (IsFeatureAdaptive D pt); [ | discriminate ].
      split; [ reflexivity | ].
      revert Hret. by_type; try (intros; left; intuition congruence);
        try (intros Hret; discriminate Hret).
      destruct (_endcapStencilTables pt); [ | discriminate ].
      intros _. right. split; [ assumption | discriminate ].
    + intros [HFA Hty]. run_Limit. rewrite HFA.
      by_type; try (eexists; reflexivity);
        try (exfalso; intuition lia).
      destruct (_endcapStencilTables pt) as [ tables | ].
      * rewrite InterpolateGregoryPatch_slots. eexists. reflexivity.
      * exfalso. intuition congruence.
  - intros HFA Hty Hnone. run_Limit. rewrite HFA, Hnone. by_type.
Qed.

End EntryPointResults.

Section ConstantData.
Context {PatchArray PatchParamTable PatchParam BitField : Type}.
Context {PatchDescriptor IndexArray : Type}.
Variable D : @Declared Qc PatchArray PatchParamTable PatchParam BitField
                      PatchDescriptor IndexArray.

(** X13: in exact arithmetic [Interpolate] on a store that is not feature
    adaptive returns the value c with zero derivatives when the four control
    vertices of the patch hold c, whatever (s,t), the sub-face
    normalisation and the initial destination. *)
Theorem Interpolate_reproduces_constants (c : Qc) (src : Index -> Qc)
    (pt : @PatchTables Qc PatchArray PatchParamTable) (handle : PatchHandle)
    (s t : Qc) (dst : LimitFrame Qc) :
  IsFeatureAdaptive D pt = false ->
  (forall k, (k < 4)%nat ->
     src (begin D (GetPatchVertices D pt handle) k) = c) ->
  Interpolate D src pt handle s t dst =
  Returns {| point := c; deriv1 := #0; deriv2 := #0 |}.
Proof.
  intros HFA Hc. unfold Interpolate, assert_that. rewrite HFA. cbn [negb].
  destruct (Normalize D _ s t) as [s' t']. f_equal.
  cbv [InterpolateBilinear bilinearWeights for_loop seq fold_left Nat.sub
       arr nth AddWithWeight Clear Summing point deriv1 deriv2].
  rewrite !Hc by lia. exact_arith. f_equal; ring.
Qed.

(** X14: in exact arithmetic [Limit] on a REGULAR, BOUNDARY or CORNER patch
    of a feature-adaptive store returns the value c with zero derivatives
    when the control vertices of the patch hold c (sixteen of them for a
    REGULAR patch, twelve for a BOUNDARY patch, nine for a CORNER patch),
    provided the B-spline basis weights add up to 1 and their derivatives
    to 0. *)
Theorem Limit_reproduces_constants (c : Qc) (src : Index -> Qc)
    (pt : @PatchTables Qc PatchArray PatchParamTable) (handle : PatchHandle)
    (s t : Qc) (dst : LimitFrame Qc) :
  let E := TYPE D in
  let ptype := patchType D pt handle in
  let holds (n : nat) :=
    forall k, (k < n)%nat ->
      src (begin D (GetPatchVertices D pt handle) k) = c in
  let flat := Returns {| point := c; deriv1 := #0; deriv2 := #0 |} in
  declared_in_order E ->
  IsFeatureAdaptive D pt = true ->
  (forall bits u v,
     partitionsUnity (getBasisWeightsAtUV D BASIS_BSPLINE bits u v)) ->
  (ptype = REGULAR E -> holds 16%nat ->
   Limit D src pt handle s t dst = flat) /\
  (ptype = BOUNDARY E -> holds 12%nat ->
   Limit D src pt handle s t dst = flat) /\
  (ptype = CORNER E -> holds 9%nat ->
   Limit D src pt handle s t dst = flat).
Proof.
  intros E ptype holds flat (H1 & H2 & H3) HFA HPU.
  subst E ptype holds flat. cbv beta.
  unfold Limit, assert_that. rewrite HFA.
  destruct (Normalize D _ s t) as [s' t'].
  specialize (HPU (bitField D (param_at D (_paramTable pt) (patchIndex handle)))
                  s' t').
  destruct (getBasisWeightsAtUV D BASIS_BSPLINE _ s' t') as [[Q Qd1] Qd2].
  destruct HPU as (HQ & HQ1 & HQ2).
  destruct (bicubic_on_constant_data c src
              (begin D (GetPatchVertices D pt handle)) Q Qd1 Qd2 (Clear dst))
    as (HR & HB & HC).
  rewrite <- (moved_from_clear c dst HQ HQ1 HQ2).
  split; [ | split ]; intros Hty Hc; rewrite Hty;
    repeat match goal with
    | |- context [(?a <=? ?b)%Z] => destruct (Z.leb_spec a b)
    | |- context [(?a =? ?b)%Z] => destruct (Z.eqb_spec a b)
    end; cbn [andb orb]; try (exfalso; lia).
  - rewrite HR by exact Hc. reflexivity.
  - rewrite HB by exact Hc. reflexivity.
  - rewrite HC by exact Hc. reflexivity.
Qed.

(** X15: in exact arithmetic [Limit] on a GREGORY_BASIS patch of a
    feature-adaptive store with end-cap stencil tables returns the value c
    with zero derivatives on a source that holds c everywhere, provided the
    twenty stencils from [GetEndCapStencilIndex(handle)] on have weights that
    add up to 1, the Bezier basis weights add up to 1 and their derivatives
    to 0, and none of the four sums vanishes at the normalised (s,t). *)
Theorem Limit_gregory_reproduces_constants (c : Qc)
    (pt : @PatchTables Qc PatchArray PatchParamTable) (handle : PatchHandle)
    (tables : StencilTables) (s t s' t' : Qc) (dst : LimitFrame Qc) :
  let bits := bitField D (param_at D (_paramTable pt) (patchIndex handle)) in
  IsFeatureAdaptive D pt = true ->
  declared_in_order (TYPE D) ->
  patchType D pt handle = GREGORY_BASIS (TYPE D) ->
  _endcapStencilTables pt = Some tables ->
  (forall k, (0 <= k < 20)%Z ->
     stencilWeightSum (tables (GetEndCapStencilIndex handle + k)%Z) = #1) ->
  partitionsUnity (getBasisWeightsAtUV D BASIS_BEZIER bits s' t') ->
  Normalize D bits s t = (s', t') ->
  s' + t' <> #0 -> (#1 - s') + t' <> #0 ->
  s' + (#1 - t') <> #0 -> (#1 - s') + (#1 - t') <> #0 ->
  Limit D (fun _ => c) pt handle s t dst =
  Returns {| point := c; deriv1 := #0; deriv2 := #0 |}.
Proof.
  intros bits HFA (H1 & H2 & H3) Hty Htab HW HPU HN H11 H12 H21 H22.
  subst bits. unfold Limit, assert_that. rewrite HFA, HN, Hty, Htab.
  destruct (getBasisWeightsAtUV D BASIS_BEZIER _ s' t') as [[Q Qd1] Qd2].
  destruct HPU as (HQ & HQ1 & HQ2).
  repeat match goal with
  | |- context [(?a <=? ?b)%Z] => destruct (Z.leb_spec a b)
  | |- context [(?a =? ?b)%Z] => destruct (Z.eqb_spec a b)
  end; cbn [andb orb]; try (exfalso; lia).
  unfold GetEndCapStencilIndex in HW.
  rewrite (gregory_on_constant_data c tables (vertIndex handle) Q Qd1 Qd2
             (Clear dst) HW H11 H12 H21 H22).
  f_equal. apply moved_from_clear; assumption.
Qed.

End ConstantData.

(** ** Instances *)

(** Vertex 0 holds [-0.0], vertex [i] holds [i]. *)
Lemma bilinear_corners_are_exact_witness :
  let src : Index -> Binary32.float :=
    fun i => if (i =? 0)%Z then S754_zero true else Binary32.of_Z i in
  let cvs : ptr Index := Z.of_nat in
  let P s t :=
    point (InterpolateBilinear src cvs s t (Clear (Example.frame 1 2 3))) in
  (forall k, (k < 4)%nat ->
     Binary32.valid (src (cvs k)) = true /\
     Binary32.is_finite (src (cvs k)) = true) /\
  P #0 #0 = S754_zero false /\ P #1 #0 = Binary32.of_Z 1 /\
  P #1 #1 = Binary32.of_Z 2 /\ P #0 #1 = Binary32.of_Z 3.
Proof.
  intros src cvs P.
  assert (H : forall k, (k < 4)%nat ->
            Binary32.valid (src (cvs k)) = true /\
            Binary32.is_finite (src (cvs k)) = true).
  { intros k Hk.
    do 4 (destruct k as [ | k ]; [ split; reflexivity | ]).
    exfalso. lia. }
  split; [ exact H | ].
  exact (bilinear_corners_are_exact src cvs (Example.frame 1 2 3) H).
Defined.

(** Vertex 2 holds an infinity. *)
Lemma bilinear_corners_are_poisoned_witness :
  let src : Index -> Binary32.float :=
    fun i => if (i =? 2)%Z then S754_infinity false else Binary32.of_Z i in
  let cvs : ptr Index := Z.of_nat in
  let P s t :=
    point (InterpolateBilinear src cvs s t (Clear (Example.frame 1 2 3))) in
  Binary32.is_finite (src (cvs 2%nat)) = false /\
  P #0 #0 = S754_nan /\ P #1 #0 = S754_nan /\ P #0 #1 = S754_nan.
Proof.
  intros src cvs P.
  assert (H : Binary32.is_finite (src (cvs 2%nat)) = false) by reflexivity.
  destruct (bilinear_corners_are_poisoned src cvs (Example.frame 1 2 3))
    as (P00 & P10 & _ & P01).
  split; [ exact H | ].
  split; [ exact (P00 (or_intror (or_introl H))) | ].
  split; [ exact (P10 (or_intror (or_introl H)))
         | exact (P01 (or_intror (or_intror H))) ].
Defined.

Lemma bicubic_patches_reproduce_constants_witness :
  let c := ExactExample.seven in
  let src : Index -> Qc := fun _ => c in
  let cvs : ptr Index := Z.of_nat in
  let Q : ptr Qc := fun _ => Q2Qc (Qmake 1 16) in
  let Qd1 : ptr Qc := fun k => if Nat.even k then #1 else #(-1) in
  let Qd2 : ptr Qc := fun k => if Nat.even k then #(-1) else #1 in
  let dst := ExactExample.frame 1 2 3 in
  let flat := {| point := c; deriv1 := #0; deriv2 := #0 |} in
  (sumTo 16 Q = #1 /\ sumTo 16 Qd1 = #0 /\ sumTo 16 Qd2 = #0 /\
   (forall k, (k < 16)%nat -> src (cvs k) = c)) /\
  InterpolateRegularPatch src cvs Q Qd1 Qd2 (Clear dst) = flat /\
  InterpolateBoundaryPatch src cvs Q Qd1 Qd2 (Clear dst) = flat /\
  InterpolateCornerPatch src cvs Q Qd1 Qd2 (Clear dst) = flat.
Proof.
  intros c src cvs Q Qd1 Qd2 dst flat.
  assert (HQ : sumTo 16 Q = #1) by (apply Qc_is_canon; reflexivity).
  assert (HQ1 : sumTo 16 Qd1 = #0) by (apply Qc_is_canon; reflexivity).
  assert (HQ2 : sumTo 16 Qd2 = #0) by (apply Qc_is_canon; reflexivity).
  assert (Hc : forall k : nat, src (cvs k) = c) by reflexivity.
  destruct (bicubic_patches_reproduce_constants c src cvs dst HQ HQ1 HQ2)
    as (HR & HB & HC).
  split; [ repeat (split; [ assumption | ]); intros k _; exact (Hc k) | ].
  split; [ exact (HR (fun k _ => Hc k)) | ].
  split; [ exact (HB (fun k _ => Hc k)) | exact (HC (fun k _ => Hc k)) ].
Defined.

(** Two index arrays that differ from entry 16 on. *)
Lemma patches_read_their_vertices_only_witness :
  let cvs : ptr Index := Z.of_nat in
  let cvs' : ptr Index := fun k => if (k <? 16)%nat then Z.of_nat k else 99%Z in
  let Q : ptr Binary32.float := fun k => Binary32.of_Z (Z.of_nat k) in
  let dst := Example.frame 1 2 3 in
  (sameTo 4 cvs cvs' /\ sameTo 16 cvs cvs' /\ sameTo 12 cvs cvs' /\
   sameTo 9 cvs cvs') /\
  cvs 16%nat <> cvs' 16%nat /\
  InterpolateBilinear Example.source cvs Example.quarter Example.half dst =
  InterpolateBilinear Example.source cvs' Example.quarter Example.half dst /\
  InterpolateRegularPatch Example.source cvs Q Q Q dst =
  InterpolateRegularPatch Example.source cvs' Q Q Q dst /\
  InterpolateBoundaryPatch Example.source cvs Q Q Q dst =
  InterpolateBoundaryPatch Example.source cvs' Q Q Q dst /\
  InterpolateCornerPatch Example.source cvs Q Q Q dst =
  InterpolateCornerPatch Example.source cvs' Q Q Q dst.
Proof.
  intros cvs cvs' Q dst.
  assert (H : forall n, (n <= 16)%nat -> sameTo n cvs cvs').
  { intros n Hn k Hk. unfold cvs'.
    destruct (Nat.ltb_spec k 16) as [ _ | Hge ]; [ reflexivity | ].
    exfalso. lia. }
  assert (H4 : sameTo 4 cvs cvs') by (apply H; lia).
  assert (H16 : sameTo 16 cvs cvs') by (apply H; lia).
  assert (H12 : sameTo 12 cvs cvs') by (apply H; lia).
  assert (H9 : sameTo 9 cvs cvs') by (apply H; lia).
  destruct (@patches_read_their_vertices_only _ _ _ _ _ Example.source cvs cvs' dst)
    as (B & R & Bo & C).
  split; [ repeat (split; [ assumption | ]); assumption | ].
  split; [ intro E; discriminate E | ].
  split; [ exact (B H4 Example.quarter Example.half) | ].
  split; [ exact (R H16 Q Q Q) | ].
  split; [ exact (Bo H12 Q Q Q) | exact (C H9 Q Q Q) ].
Defined.

(** Weight tables that differ from entry 16 on, and tables that differ at
    entry 15 or 14. *)
Lemma mirrored_patches_read_sixteen_weights_witness :
  let cvs : ptr Index := Z.of_nat in
  let Q : ptr Binary32.float := fun k => Binary32.of_Z (Z.of_nat k) in
  let Q' : ptr Binary32.float := fun k => if (k <? 16)%nat then Q k else #0 in
  let Z' : ptr Binary32.float := fun _ => #0 in
  let none : list (Call Binary32.float Binary32.float) := [] in
  (sameTo 16 Q Q' /\ Q 15%nat <> Z' 15%nat /\ Q 14%nat <> Z' 14%nat) /\
  InterpolateBoundaryPatch Example.source cvs Q Q Q none =
  InterpolateBoundaryPatch Example.source cvs Q' Q' Q' none /\
  InterpolateCornerPatch Example.source cvs Q Q Q none =
  InterpolateCornerPatch Example.source cvs Q' Q' Q' none /\
  InterpolateBoundaryPatch Example.source cvs Q Q Q none <>
  InterpolateBoundaryPatch Example.source cvs Z' Q Q none /\
  InterpolateCornerPatch Example.source cvs Q Q Q none <>
  InterpolateCornerPatch Example.source cvs Z' Q Q none.
Proof.
  intros cvs Q Q' Z' none.
  assert (H : sameTo 16 Q Q').
  { intros k Hk. unfold Q'.
    destruct (Nat.ltb_spec k 16) as [ _ | Hge ]; [ reflexivity | ].
    exfalso. lia. }
  assert (H15 : Q 15%nat <> Z' 15%nat) by (intro E; discriminate E).
  assert (H14 : Q 14%nat <> Z' 14%nat) by (intro E; discriminate E).
  destruct (@mirrored_patches_read_sixteen_weights _ _ _ Example.source cvs
              Q Q' Q Q' Q Q') as (Same & _ & _).
  destruct (@mirrored_patches_read_sixteen_weights _ _ _ Example.source cvs
              Q Z' Q Q Q Q) as (_ & Bo & C).
  split; [ repeat (split; [ assumption | ]); assumption | ].
  split; [ exact (proj1 (Same H H H)) | ].
  split; [ exact (proj2 (Same H H H)) | ].
  split; [ exact (Bo H15) | exact (C H14) ].
Defined.

(** Stencil tables that differ outside the twenty stencils of the patch. *)
Lemma gregory_patch_reads_twenty_stencils_witness :
  let tables := Example.stencils in
  let tables' : @StencilTables Binary32.float :=
    fun i => if ((0 <=? i) && (i <? 20))%Z then Example.stencils i
             else {| GetSize := 5;
                     GetVertexIndices := fun _ => 0%Z;
                     GetWeights := fun _ => #1 |} in
  let Q : ptr Binary32.float := fun k => Binary32.of_Z (Z.of_nat k) in
  let dst := Example.frame 1 2 3 in
  (forall k, (0 <= k < 20)%Z -> tables (0 + k)%Z = tables' (0 + k)%Z) /\
  InterpolateGregoryPatch Example.source tables 0 Example.quarter Example.half
    Q Q Q dst =
  InterpolateGregoryPatch Example.source tables' 0 Example.quarter Example.half
    Q Q Q dst.
Proof.
  intros tables tables' Q dst.
  assert (H : forall k, (0 <= k < 20)%Z ->
            tables (0 + k)%Z = tables' (0 + k)%Z).
  { intros k Hk. unfold tables'. cbn [Z.add].
    destruct (Z.leb_spec 0 k) as [ _ | Hlt ]; [ | exfalso; lia ].
    destruct (Z.ltb_spec k 20) as [ _ | Hge ]; [ reflexivity | exfalso; lia ]. }
  split; [ exact H | ].
  exact (proj1 (@gregory_patch_reads_twenty_stencils _ _ _ _ _ Example.source tables
                  tables' 0 Example.quarter Example.half Q Q Q dst) H).
Defined.

Lemma exact_stencils_sum_to_one (stencilIndex k : Z) :
  stencilWeightSum (ExactExample.stencils (stencilIndex + k)%Z) = #1.
Proof. apply Qc_is_canon. reflexivity. Defined.

Lemma exact_weights_partition_unity (bits : unit) (u v : Qc) :
  partitionsUnity
    (getBasisWeightsAtUV ExactExample.declared BASIS_BSPLINE bits u v) /\
  partitionsUnity
    (getBasisWeightsAtUV ExactExample.declared BASIS_BEZIER bits u v).
Proof. repeat split; apply Qc_is_canon; reflexivity. Defined.

Lemma gregory_patch_reproduces_constants_witness :
  let c := ExactExample.seven in
  let s := ExactExample.third in
  let t := Q2Qc (Qmake 1 2) in
  let Q : ptr Qc := fun _ => Q2Qc (Qmake 1 16) in
  let Qd1 : ptr Qc := fun k => if Nat.even k then #1 else #(-1) in
  let Qd2 : ptr Qc := fun k => if Nat.even k then #(-1) else #1 in
  ((forall k, (0 <= k < 20)%Z ->
      stencilWeightSum (ExactExample.stencils (0 + k)%Z) = #1) /\
   sumTo 16 Q = #1 /\ sumTo 16 Qd1 = #0 /\ sumTo 16 Qd2 = #0 /\
   s + t <> #0 /\ (#1 - s) + t <> #0 /\
   s + (#1 - t) <> #0 /\ (#1 - s) + (#1 - t) <> #0) /\
  InterpolateGregoryPatch (fun _ => c) ExactExample.stencils 0 s t Q Qd1 Qd2
    (Clear (ExactExample.frame 1 2 3)) =
  Returns {| point := c; deriv1 := #0; deriv2 := #0 |}.
Proof.
  intros c s t Q Qd1 Qd2.
  assert (HW : forall k, (0 <= k < 20)%Z ->
             stencilWeightSum (ExactExample.stencils (0 + k)%Z) = #1)
    by (intros k _; exact (exact_stencils_sum_to_one 0 k)).
  assert (HQ : sumTo 16 Q = #1) by (apply Qc_is_canon; reflexivity).
  assert (HQ1 : sumTo 16 Qd1 = #0) by (apply Qc_is_canon; reflexivity).
  assert (HQ2 : sumTo 16 Qd2 = #0) by (apply Qc_is_canon; reflexivity).
  assert (H11 : s + t <> #0) by (apply Qc_neq; reflexivity).
  assert (H12 : (#1 - s) + t <> #0) by (apply Qc_neq; reflexivity).
  assert (H21 : s + (#1 - t) <> #0) by (apply Qc_neq; reflexivity).
  assert (H22 : (#1 - s) + (#1 - t) <> #0) by (apply Qc_neq; reflexivity).
  split; [ repeat (split; [ assumption | ]); assumption | ].
  exact (gregory_patch_reproduces_constants c ExactExample.stencils 0
           (ExactExample.frame 1 2 3) HW HQ HQ1 HQ2 H11 H12 H21 H22).
Defined.

Lemma gregory_patch_at_degenerate_corners_witness :
  let c := ExactExample.seven in
  let Q : ptr Qc := fun _ => Q2Qc (Qmake 1 16) in
  let Qd1 : ptr Qc := fun k => if Nat.even k then #1 else #(-1) in
  let Qd2 : ptr Qc := fun k => if Nat.even k then #(-1) else #1 in
  (forall k, (0 <= k < 20)%Z ->
     stencilWeightSum (ExactExample.stencils (0 + k)%Z) = #1) /\
  InterpolateGregoryPatch (fun _ => c) ExactExample.stencils 0 #0 #0 Q Qd1 Qd2
    (Clear (ExactExample.frame 1 2 3)) =
  Returns {| point := c * (sumTo 16 Q - Q 5%nat);
             deriv1 := c * (sumTo 16 Qd1 - Qd1 5%nat);
             deriv2 := c * (sumTo 16 Qd2 - Qd2 5%nat) |}.
Proof.
  intros c Q Qd1 Qd2.
  assert (HW : forall k, (0 <= k < 20)%Z ->
             stencilWeightSum (ExactExample.stencils (0 + k)%Z) = #1)
    by (intros k _; exact (exact_stencils_sum_to_one 0 k)).
  split; [ exact HW | ].
  exact (proj1 (gregory_patch_at_degenerate_corners c ExactExample.stencils 0
                  Q Qd1 Qd2 (ExactExample.frame 1 2 3) HW)).
Defined.

Lemma Limit_returns_iff_witness :
  let D := ExactExample.declared in
  let src : Index -> Qc := fun _ => ExactExample.seven in
  let boundary := ExactExample.tables 8 None in
  let capless := ExactExample.tables 12 None in
  let Limit_ pt :=
    Limit D src pt Example.handle ExactExample.third ExactExample.seven
          (ExactExample.frame 1 2 3) in
  (declared_in_order (TYPE D) /\
   IsFeatureAdaptive D boundary = true /\
   patchType D boundary Example.handle = BOUNDARY (TYPE D) /\
   IsFeatureAdaptive D capless = true /\
   patchType D capless Example.handle = GREGORY_BASIS (TYPE D) /\
   _endcapStencilTables capless = None) /\
  (exists dst', Limit_ boundary = Returns dst') /\
  Limit_ capless = Aborts Assert_endcapStencilTables.
Proof.
  intros D src boundary capless Limit_.
  assert (Hb : IsFeatureAdaptive D boundary = true) by reflexivity.
  assert (Tb : patchType D boundary Example.handle = BOUNDARY (TYPE D))
    by reflexivity.
  assert (Hc : IsFeatureAdaptive D capless = true) by reflexivity.
  assert (Tc : patchType D capless Example.handle = GREGORY_BASIS (TYPE D))
    by reflexivity.
  assert (Nc : _endcapStencilTables capless = None) by reflexivity.
  split; [ split; [ exact types_declared_in_order | ];
           repeat (split; [ assumption | ]); assumption | ].
  split.
  - apply (proj1 (Limit_returns_iff D src boundary Example.handle
                    ExactExample.third ExactExample.seven
                    (ExactExample.frame 1 2 3) types_declared_in_order)).
    split; [ exact Hb | ].
    left. right. right. left. exact Tb.
  - exact (proj2 (Limit_returns_iff D src capless Example.handle
                    ExactExample.third ExactExample.seven
                    (ExactExample.frame 1 2 3) types_declared_in_order)
                 Hc Tc Nc).
Defined.

Lemma Interpolate_reproduces_constants_witness :
  let D := ExactExample.declared in
  let c := ExactExample.seven in
  let src : Index -> Qc := fun _ => c in
  let pt := ExactExample.tables Example.QUADS None in
  (IsFeatureAdaptive D pt = false /\
   (forall k, (k < 4)%nat ->
      src (begin D (GetPatchVertices D pt Example.handle) k) = c)) /\
  Interpolate D src pt Example.handle ExactExample.third ExactExample.seven
    (ExactExample.frame 1 2 3) =
  Returns {| point := c; deriv1 := #0; deriv2 := #0 |}.
Proof.
  intros D c src pt.
  assert (HFA : IsFeatureAdaptive D pt = false) by reflexivity.
  assert (Hc : forall k, (k < 4)%nat ->
             src (begin D (GetPatchVertices D pt Example.handle) k) = c)
    by reflexivity.
  split; [ split; assumption | ].
  exact (@Interpolate_reproduces_constants _ _ _ _ _ _ D c src pt
           Example.handle ExactExample.third ExactExample.seven
           (ExactExample.frame 1 2 3) HFA Hc).
Defined.

(** A boundary patch whose twelve vertices hold 7 and a corner patch
    whose nine vertices hold 7, the vertices after them holding 0. *)
Lemma Limit_reproduces_constants_witness :
  let D := ExactExample.declared in
  let c := ExactExample.seven in
  let upTo (n : Z) : Index -> Qc := fun i => if (i <? n)%Z then c else #0 in
  let boundary := ExactExample.tables 8 None in
  let corner := ExactExample.tables 9 None in
  let cvs pt := begin D (GetPatchVertices D pt Example.handle) in
  let flat := Returns {| point := c; deriv1 := #0; deriv2 := #0 |} in
  (declared_in_order (TYPE D) /\
   IsFeatureAdaptive D boundary = true /\
   IsFeatureAdaptive D corner = true /\
   (forall bits u v,
      partitionsUnity (getBasisWeightsAtUV D BASIS_BSPLINE bits u v)) /\
   patchType D boundary Example.handle = BOUNDARY (TYPE D) /\
   patchType D corner Example.handle = CORNER (TYPE D) /\
   (forall k, (k < 12)%nat -> upTo 12%Z (cvs boundary k) = c) /\
   (forall k, (k < 9)%nat -> upTo 9%Z (cvs corner k) = c)) /\
  (upTo 12%Z (cvs boundary 12%nat) <> c /\
   upTo 9%Z (cvs corner 9%nat) <> c) /\
  Limit D (upTo 12%Z) boundary Example.handle ExactExample.third
    ExactExample.seven (ExactExample.frame 1 2 3) = flat /\
  Limit D (upTo 9%Z) corner Example.handle ExactExample.third
    ExactExample.seven (ExactExample.frame 1 2 3) = flat.
Proof.
  intros D c upTo boundary corner cvs flat.
  assert (Hb : IsFeatureAdaptive D boundary = true) by reflexivity.
  assert (Hc : IsFeatureAdaptive D corner = true) by reflexivity.
  assert (HPU : forall bits u v,
             partitionsUnity (getBasisWeightsAtUV D BASIS_BSPLINE bits u v))
    by (intros bits u v; exact (proj1 (exact_weights_partition_unity bits u v))).
  assert (Tb : patchType D boundary Example.handle = BOUNDARY (TYPE D))
    by reflexivity.
  assert (Tc : patchType D corner Example.handle = CORNER (TYPE D))
    by reflexivity.
  assert (H12 : forall k, (k < 12)%nat -> upTo 12%Z (cvs boundary k) = c).
  { intros k Hk. do 12 (destruct k as [ | k ]; [ reflexivity | ]).
    exfalso. lia. }
  assert (H9 : forall k, (k < 9)%nat -> upTo 9%Z (cvs corner k) = c).
  { intros k Hk. do 9 (destruct k as [ | k ]; [ reflexivity | ]).
    exfalso. lia. }
  split; [ split; [ exact types_declared_in_order | ];
           repeat (split; [ assumption | ]); assumption | ].
  split; [ split; apply not_eq_sym, Qc_neq; reflexivity | ].
  split.
  - exact (proj1 (proj2
             (@Limit_reproduces_constants _ _ _ _ _ _ D c (upTo 12%Z) boundary
                Example.handle ExactExample.third ExactExample.seven
                (ExactExample.frame 1 2 3) types_declared_in_order Hb HPU))
             Tb H12).
  - exact (proj2 (proj2
             (@Limit_reproduces_constants _ _ _ _ _ _ D c (upTo 9%Z) corner
                Example.handle ExactExample.third ExactExample.seven
                (ExactExample.frame 1 2 3) types_declared_in_order Hc HPU))
             Tc H9).
Defined.

Lemma Limit_gregory_reproduces_constants_witness :
  let D := ExactExample.declared in
  let c := ExactExample.seven in
  let pt := ExactExample.tables 12 (Some ExactExample.stencils) in
  let s := ExactExample.third in
  let t := Q2Qc (Qmake 1 2) in
  (IsFeatureAdaptive D pt = true /\
   declared_in_order (TYPE D) /\
   patchType D pt Example.handle = GREGORY_BASIS (TYPE D) /\
   _endcapStencilTables pt = Some ExactExample.stencils /\
   (forall k, (0 <= k < 20)%Z ->
      stencilWeightSum
        (ExactExample.stencils (GetEndCapStencilIndex Example.handle + k)%Z)
      = #1) /\
   partitionsUnity (getBasisWeightsAtUV D BASIS_BEZIER tt s t) /\
   Normalize D tt s t = (s, t) /\
   s + t <> #0 /\ (#1 - s) + t <> #0 /\
   s + (#1 - t) <> #0 /\ (#1 - s) + (#1 - t) <> #0) /\
  Limit D (fun _ => c) pt Example.handle s t (ExactExample.frame 1 2 3) =
  Returns {| point := c; deriv1 := #0; deriv2 := #0 |}.
Proof.
  intros D c pt s t.
  assert (HFA : IsFeatureAdaptive D pt = true) by reflexivity.
  assert (Hty : patchType D pt Example.handle = GREGORY_BASIS (TYPE D))
    by reflexivity.
  assert (Htab : _endcapStencilTables pt = Some ExactExample.stencils)
    by reflexivity.
  assert (HW : forall k, (0 <= k < 20)%Z ->
             stencilWeightSum
               (ExactExample.stencils
                  (GetEndCapStencilIndex Example.handle + k)%Z) = #1)
    by (intros k _; exact (exact_stencils_sum_to_one _ k)).
  assert (HPU : partitionsUnity (getBasisWeightsAtUV D BASIS_BEZIER tt s t))
    by exact (proj2 (exact_weights_partition_unity tt s t)).
  assert (HN : Normalize D tt s t = (s, t)) by reflexivity.
  assert (H11 : s + t <> #0) by (apply Qc_neq; reflexivity).
  assert (H12 : (#1 - s) + t <> #0) by (apply Qc_neq; reflexivity).
  assert (H21 : s + (#1 - t) <> #0) by (apply Qc_neq; reflexivity).
  assert (H22 : (#1 - s) + (#1 - t) <> #0) by (apply Qc_neq; reflexivity).
  split; [ split; [ exact HFA | ];
           split; [ exact types_declared_in_order | ];
           repeat (split; [ assumption | ]); assumption | ].
  exact (@Limit_gregory_reproduces_constants _ _ _ _ _ _ D c pt
           Example.handle ExactExample.stencils s t s t
           (ExactExample.frame 1 2 3) HFA types_declared_in_order
           Hty Htab HW HPU HN H11 H12 H21 H22).
Defined.
